(** * The selective gradient outfeeder

    A shallow embedding of
    [feature_examples/tensorflow/inspecting_tensors/outfeed_optimizer.py]:
    the [OutfeedOptimizer] wrapper, which hands the gradients of a wrapped
    optimizer to a [MaybeOutfeedQueue] either after they are computed or
    before they are applied.

    The wrapper is graph-building Python code.  Its methods are embedded as
    computations in a state-and-exception monad over a [world] that holds
    the instance's attributes, the state of the two collaborators, the
    control-dependency scope of the graph under construction and a log of
    the calls made to the collaborators. *)

From Stdlib Require Import List String Bool Arith Lia.
Import ListNotations.

Set Implicit Arguments.
Set Warnings "-register-all".

(** ** Data *)

(** [OutfeedOptimizerMode]: the two-valued enumeration. *)
Inductive OutfeedOptimizerMode : Type :=
| AFTER_COMPUTE
| BEFORE_APPLY.

(** The value of each member. *)
Definition value (m : OutfeedOptimizerMode) : string :=
  match m with
  | AFTER_COMPUTE => "after_compute"
  | BEFORE_APPLY => "before_apply"
  end.

(** [==] on the members of the enumeration. *)
Definition mode_eqb (a b : OutfeedOptimizerMode) : bool :=
  match a, b with
  | AFTER_COMPUTE, AFTER_COMPUTE => true
  | BEFORE_APPLY, BEFORE_APPLY => true
  | _, _ => false
  end.

(** A trainable variable; the wrapper only ever reads its [name]. *)
Record tf_variable : Type := Variable_ { name : string }.

(** What may sit in the variable position of an entry of [grads_and_vars]:
    a variable, or an object without a [name] attribute ([None]). *)
Inductive pyobj : Type :=
| PyVariable (v : tf_variable)
| PyNone.

Section Model.

(** [T]: tensors built by the wrapped optimizer; [kernel]: what an
    operation computes (an update step, an enqueue); [Err]: the
    exceptions of the wrapped optimizer; [Kwargs]: the keyword arguments
    forwarded to [compute_gradients]. *)
Context {T kernel Err Kwargs : Type}.

(** A graph operation: its kernel and its control inputs, that is the
    operations that must have run before it. *)
Inductive operation : Type :=
| Op (k : kernel) (ctrl : list operation).

Definition op_kernel (o : operation) : kernel :=
  match o with Op k _ => k end.

Definition op_ctrl (o : operation) : list operation :=
  match o with Op _ c => c end.

(** A tensor: one built by the wrapped optimizer, or the output of an
    identity operation ([array_ops.identity]) with its control inputs. *)
Inductive tensor : Type :=
| Produced (t : T)
| Identity (x : tensor) (ctrl : list operation).

(** The value a tensor carries: an identity passes its input through. *)
Fixpoint value_of (x : tensor) : T :=
  match x with
  | Produced t => t
  | Identity y _ => value_of y
  end.

(** An element of [grads_and_vars].  The loops of the wrapper unpack each
    element with [g, v = ...]; a tuple of one element does not unpack.  The
    gradient of a variable that does not reach the loss is [None]. *)
Inductive entry : Type :=
| Tuple2 (g : option tensor) (v : pyobj)
| Tuple1 (g : option tensor).

(** A Python list object: its identity and its elements.  The wrapper
    never mutates a list, so the elements stay with the identity. *)
Record pylist : Type := PyList { list_id : nat; items : list entry }.

(** The list object of a list display of operations, [[enqueue]]. *)
Record pyoplist : Type :=
  PyOpList { oplist_id : nat; oplist_items : list operation }.

(** Exceptions: the three the wrapper's own statements can run into
    (unpacking an entry, reading [v.name], [array_ops.identity] on [None]),
    and those raised inside the wrapped optimizer. *)
Inductive exn : Type :=
| ValueError_unpack
| AttributeError_name
| ValueError_none
| Raised (e : Err).

Inductive result (A : Type) : Type :=
| Ok (a : A)
| Raise (e : exn).
Arguments Ok {A} a.
Arguments Raise {A} e.

Definition result_map {A B} (f : A -> B) (r : result A) : result B :=
  match r with
  | Ok a => Ok (f a)
  | Raise e => Raise e
  end.

(** ** The collaborators *)

(** The wrapped optimizer, as the wrapper uses it: a table of methods over
    the optimizer's own state [O].  [opt_apply_gradients] yields the
    kernel of the update operation; the graph attaches the control inputs
    of the scope the call is made in. *)
Record Optimizer (O : Type) : Type := {
  opt_compute_gradients :
    tensor -> option (list tf_variable) -> Kwargs -> O ->
    (Err + list entry) * O;
  opt_apply_gradients :
    list entry -> option tf_variable -> option string -> O ->
    (Err + kernel) * O;
  opt_get_name : O -> string;
  opt_get_slot : tf_variable -> string -> O -> option tf_variable;
  opt_get_slot_names : O -> list string;
  opt_variables : O -> list tf_variable
}.

(** The outfeed queue, as the wrapper uses it: [maybe_outfeed key value]
    offers a value, [maybe_enqueue] commits and yields the kernel of the
    enqueue operation, or nothing when the queue holds nothing. *)
Record MaybeOutfeedQueue (Q : Type) : Type := {
  maybe_outfeed : string -> option tensor -> Q -> Q;
  maybe_enqueue : Q -> option kernel * Q
}.

Section Wrapper.

Context {O Q : Type}.

(** ** The instance *)

(** The attributes [__init__] sets. *)
Record OutfeedOptimizer : Type := {
  _use_locking : bool;
  _name : string;
  _wrapped_optimizer : Optimizer O;
  _outfeed : MaybeOutfeedQueue Q;
  _outfeed_optimizer_mode : OutfeedOptimizerMode
}.

(** [OutfeedOptimizer.__init__]; an argument left out is [None]. *)
Definition __init__ (wrapped_optimizer : Optimizer O)
    (outfeed_queue : MaybeOutfeedQueue Q)
    (outfeed_optimizer_mode : option OutfeedOptimizerMode)
    (name : option string) : OutfeedOptimizer :=
  {| _use_locking := false;
     _name := match name with
              | Some n => n
              | None => "OutfeedOptimizer"%string
              end;
     _wrapped_optimizer := wrapped_optimizer;
     _outfeed := outfeed_queue;
     _outfeed_optimizer_mode :=
       match outfeed_optimizer_mode with
       | Some m => m
       | None => BEFORE_APPLY
       end |}.

(** ** The world *)

(** A call the wrapper makes to a collaborator. *)
Inductive event : Type :=
| EvCompute (loss : tensor) (var_list : option (list tf_variable))
            (kwargs : Kwargs)
| EvOffer (key : string) (value : option tensor)
| EvCommit (enqueue : option operation)
| EvApply (grads_and_vars : list entry) (global_step : option tf_variable)
          (nm : option string) (scope : list operation).

Record world : Type := World {
  this : OutfeedOptimizer;     (* the attributes of [self] *)
  opt : O;                     (* the wrapped optimizer's state *)
  queue : Q;                   (* the queue's state *)
  deps : list operation;       (* the control-dependency scope *)
  next_id : nat;               (* identity of the next list object *)
  log : list event             (* calls to collaborators, oldest first *)
}.

Definition with_opt (o : O) (w : world) : world :=
  World (this w) o (queue w) (deps w) (next_id w) (log w).
Definition with_queue (q : Q) (w : world) : world :=
  World (this w) (opt w) q (deps w) (next_id w) (log w).
Definition with_deps (d : list operation) (w : world) : world :=
  World (this w) (opt w) (queue w) d (next_id w) (log w).
Definition with_next_id (n : nat) (w : world) : world :=
  World (this w) (opt w) (queue w) (deps w) n (log w).
Definition logged (e : event) (w : world) : world :=
  World (this w) (opt w) (queue w) (deps w) (next_id w) (log w ++ [e]).

(** ** The monad *)

Definition M (A : Type) : Type := world -> result A * world.

Definition ret {A} (a : A) : M A := fun w => (Ok a, w).

Definition raise {A} (e : exn) : M A := fun w => (Raise e, w).

Definition bind {A B} (m : M A) (k : A -> M B) : M B :=
  fun w =>
    match m w with
    | (Ok a, w') => k a w'
    | (Raise e, w') => (Raise e, w')
    end.

Notation "x <- m ;; k" := (bind m (fun x => k))
  (at level 61, m at next level, right associativity).
Notation "m ;; k" := (bind m (fun _ => k))
  (at level 61, right associativity).

(** [for x in l: body(x)] *)
Fixpoint for_ {A} (l : list A) (body : A -> M unit) : M unit :=
  match l with
  | [] => ret tt
  | x :: rest => body x ;; for_ rest body
  end.

(** [[f(x) for x in l]], before the list object is built *)
Fixpoint comprehension {A B} (f : A -> M B) (l : list A) : M (list B) :=
  match l with
  | [] => ret []
  | x :: rest => y <- f x ;; ys <- comprehension f rest ;; ret (y :: ys)
  end.

(** [enumerate(l)] *)
Definition enumerate {A} (l : list A) : list (nat * A) :=
  combine (seq 0 (List.length l)) l.

(** A new list object. *)
Definition new_list (l : list entry) : M pylist :=
  fun w => (Ok (PyList (next_id w) l), with_next_id (S (next_id w)) w).

(** A new list object for a list display of operations. *)
Definition new_op_list (l : list operation) : M pyoplist :=
  fun w => (Ok (PyOpList (next_id w) l), with_next_id (S (next_id w)) w).

(** [self.attr] *)
Definition getattr {A} (attr : OutfeedOptimizer -> A) : M A :=
  fun w => (Ok (attr (this w)), w).

(** [g, v = e] *)
Definition unpack (e : entry) : M (option tensor * pyobj) :=
  match e with
  | Tuple2 g v => ret (g, v)
  | Tuple1 _ => raise ValueError_unpack
  end.

(** [v.name] *)
Definition getattr_name (v : pyobj) : M string :=
  match v with
  | PyVariable x => ret (name x)
  | PyNone => raise AttributeError_name
  end.

(** [array_ops.identity(x)]: a new identity operation, built in the current
    control-dependency scope; [None] is not a value it takes. *)
Definition identity (x : option tensor) : M tensor :=
  match x with
  | Some t => fun w => (Ok (Identity t (deps w)), w)
  | None => raise ValueError_none
  end.

(** [with ops.control_dependencies(control_inputs): body]: the operations
    [body] builds get as control inputs those of the enclosing scope
    followed by [control_inputs]; the enclosing scope is back in force when
    the block is left, by [return] or by an exception. *)
Definition control_dependencies {A} (control_inputs : pyoplist)
    (body : M A) : M A :=
  fun w =>
    let (r, w') :=
      body (with_deps (deps w ++ oplist_items control_inputs) w) in
    (r, with_deps (deps w) w').

(** ** Calls to the collaborators *)

(** [self._outfeed.maybe_outfeed(key, value)] *)
Definition call_maybe_outfeed (key : string) (value : option tensor)
    : M unit :=
  fun w =>
    let q := maybe_outfeed (_outfeed (this w)) key value (queue w) in
    (Ok tt, logged (EvOffer key value) (with_queue q w)).

(** [self._outfeed.maybe_enqueue()]: the enqueue operation, built in the
    current scope, or [None]. *)
Definition call_maybe_enqueue : M (option operation) :=
  fun w =>
    let (r, q) := maybe_enqueue (_outfeed (this w)) (queue w) in
    let enqueue := option_map (fun k => Op k (deps w)) r in
    (Ok enqueue, logged (EvCommit enqueue) (with_queue q w)).

(** [self._wrapped_optimizer.compute_gradients(loss, var_list=var_list,
    **kwargs)] *)
Definition call_compute_gradients (loss : tensor)
    (var_list : option (list tf_variable)) (kwargs : Kwargs) : M pylist :=
  fun w =>
    let (r, o) :=
      opt_compute_gradients (_wrapped_optimizer (this w))
        loss var_list kwargs (opt w) in
    let w' := logged (EvCompute loss var_list kwargs) (with_opt o w) in
    match r with
    | inl e => (Raise (Raised e), w')
    | inr l => new_list l w'
    end.

(** [self._wrapped_optimizer.apply_gradients(grads_and_vars, global_step,
    name)]: the update operation, built in the current scope. *)
Definition call_apply_gradients (grads_and_vars : pylist)
    (global_step : option tf_variable) (nm : option string) : M operation :=
  fun w =>
    let (r, o) :=
      opt_apply_gradients (_wrapped_optimizer (this w))
        (items grads_and_vars) global_step nm (opt w) in
    let w' :=
      logged (EvApply (items grads_and_vars) global_step nm (deps w))
             (with_opt o w) in
    match r with
    | inl e => (Raise (Raised e), w')
    | inr k => (Ok (Op k (deps w)), w')
    end.

(** ** The methods of [OutfeedOptimizer] *)

(** The body of the loop of [_maybe_enqueue]. *)
Definition offer (e : entry) : M unit :=
  gv <- unpack e ;;
  n <- getattr_name (snd gv) ;;
  call_maybe_outfeed (n ++ "_grad")%string (fst gv).

(** [list(reversed(grads_and_vars))] is a new list object, last entry
    first; the loop offers its entries in turn, and the commit follows. *)
Definition _maybe_enqueue (grads_and_vars : pylist)
    : M (option operation) :=
  reversed <- new_list (rev (items grads_and_vars)) ;;
  for_ (items reversed) offer ;;
  call_maybe_enqueue.

(** The element expression of the comprehension of [compute_gradients]:
    [(array_ops.identity(x) if i == 0 else x, y)]. *)
Definition attach (ie : nat * entry) : M entry :=
  xy <- unpack (snd ie) ;;
  x <- (if fst ie =? 0
        then (t <- identity (fst xy) ;; ret (Some t))
        else ret (fst xy)) ;;
  ret (Tuple2 x (snd xy)).

(** [if enqueue:] holds when the commit handed back an operation, and
    fails on [None]. *)
Definition compute_gradients (loss : tensor)
    (var_list : option (list tf_variable)) (kwargs : Kwargs) : M pylist :=
  grads_and_vars <- call_compute_gradients loss var_list kwargs ;;
  mode <- getattr _outfeed_optimizer_mode ;;
  if mode_eqb mode AFTER_COMPUTE then
    enqueue <- _maybe_enqueue grads_and_vars ;;
    match enqueue with
    | Some enq =>
        control_inputs <- new_op_list [enq] ;;
        control_dependencies control_inputs
          (l <- comprehension attach (enumerate (items grads_and_vars)) ;;
           new_list l)
    | None => ret grads_and_vars
    end
  else ret grads_and_vars.

Definition apply_gradients (grads_and_vars : pylist)
    (global_step : option tf_variable) (nm : option string) : M operation :=
  mode <- getattr _outfeed_optimizer_mode ;;
  if mode_eqb mode BEFORE_APPLY then
    enqueue <- _maybe_enqueue grads_and_vars ;;
    match enqueue with
    | Some enq =>
        control_inputs <- new_op_list [enq] ;;
        control_dependencies control_inputs
          (call_apply_gradients grads_and_vars global_step nm)
    | None => call_apply_gradients grads_and_vars global_step nm
    end
  else call_apply_gradients grads_and_vars global_step nm.

Definition get_name : M string :=
  fun w => (Ok (opt_get_name (_wrapped_optimizer (this w)) (opt w)), w).

Definition get_slot (var : tf_variable) (nm : string)
    : M (option tf_variable) :=
  fun w =>
    (Ok (opt_get_slot (_wrapped_optimizer (this w)) var nm (opt w)), w).

Definition get_slot_names : M (list string) :=
  fun w =>
    (Ok (opt_get_slot_names (_wrapped_optimizer (this w)) (opt w)), w).

Definition variables : M (list tf_variable) :=
  fun w => (Ok (opt_variables (_wrapped_optimizer (this w)) (opt w)), w).

End Wrapper.
End Model.

Arguments Ok {Err A} a.
Arguments Raise {Err A} e.

(** ** A queue that filters by substring *)

(** Modelled from the spec: the string match of the queue's filter, [f in
    key] on Python strings. *)
Fixpoint contains (f key : string) : bool :=
  if String.prefix f key then true
  else match key with
       | EmptyString => false
       | String _ rest => contains f rest
       end.

Section FilterQueue.

Context {T kernel : Type}.

(** Modelled from the spec: the state of the queue [MaybeOutfeedQueue], that
    is the filter set it was built with, the values retained so far, in
    insertion order, and the [enqueued] flag. *)
Record queue_state : Type := QueueState {
  _filters : option (list string);
  _vals : list (string * option (tensor (T:=T) (kernel:=kernel)));
  enqueued : bool
}.

(** Modelled from the spec: whether the filter set lets a key in; a queue
    built without filters lets every key in. *)
Definition selected (filters : option (list string)) (key : string) : bool :=
  match filters with
  | None => true
  | Some fs => existsb (fun f => contains f key) fs
  end.

(** Modelled from the spec: the mapping from name to value the queue
    accepts, [d[key] = value] on an insertion-ordered dictionary. *)
Fixpoint dict_set {V} (key : string) (value : V) (d : list (string * V))
    : list (string * V) :=
  match d with
  | [] => [(key, value)]
  | (k, v) :: rest =>
      if String.eqb k key then (k, value) :: rest
      else (k, v) :: dict_set key value rest
  end.

(** Modelled from the spec: the queue class [MaybeOutfeedQueue], whose
    module is not among the sources.  The queue owns the filtering, a
    string match of the key against the filter set it was built with; its
    commit reports whether anything was retained and raises the [enqueued]
    flag its consumer reads.  [enqueue_op] stands for the enqueue of the
    underlying outfeed. *)
Definition filter_queue
    (enqueue_op :
       list (string * option (tensor (T:=T) (kernel:=kernel))) -> kernel)
    : MaybeOutfeedQueue queue_state :=
  {| maybe_outfeed key value q :=
       if selected (_filters q) key
       then QueueState (_filters q) (dict_set key value (_vals q)) (enqueued q)
       else q;
     maybe_enqueue q :=
       match _vals q with
       | [] => (None, q)
       | _ :: _ =>
           (Some (enqueue_op (_vals q)), QueueState (_filters q) (_vals q) true)
       end |}.

(** Modelled from the spec: a queue as built, with its filter set, nothing
    retained and nothing enqueued. *)
Definition new_queue (filters : option (list string)) : queue_state :=
  QueueState filters [] false.

End FilterQueue.

(** ** Vocabulary of the statements *)

Section Vocabulary.

Context {T kernel Err Kwargs O Q : Type}.

Local Abbreviation tensor := (tensor (T:=T) (kernel:=kernel)).
Local Abbreviation entry := (entry (T:=T) (kernel:=kernel)).
Local Abbreviation operation := (operation (kernel:=kernel)).
Local Abbreviation event := (event (T:=T) (kernel:=kernel) (Kwargs:=Kwargs)).
Local Abbreviation world :=
  (world (T:=T) (kernel:=kernel) (Err:=Err) (Kwargs:=Kwargs) (O:=O) (Q:=Q)).
Local Abbreviation pair := (option tensor * tf_variable)%type.

(** A list of well-formed (gradient, variable) pairs, as Python sees it; the
    gradient of a pair may be [None]. *)
Definition of_pairs (pairs : list pair) : list entry :=
  map (fun p => Tuple2 (fst p) (PyVariable (snd p))) pairs.

(** The exception the loop of [_maybe_enqueue] runs into on an entry: a
    tuple of one element does not unpack, [None] has no [name]. *)
Definition fault (e : entry) : option (exn (Err:=Err)) :=
  match e with
  | Tuple1 _ => Some ValueError_unpack
  | Tuple2 _ PyNone => Some AttributeError_name
  | Tuple2 _ (PyVariable _) => None
  end.

(** The exception of the first entry that has one. *)
Fixpoint first_fault (l : list entry) : option (exn (Err:=Err)) :=
  match l with
  | [] => None
  | e :: rest =>
      match fault e with
      | Some x => Some x
      | None => first_fault rest
      end
  end.

(** The pairs in front of the first entry that is not a well-formed pair. *)
Fixpoint well_formed_prefix (l : list entry) : list pair :=
  match l with
  | Tuple2 g (PyVariable v) :: rest => (g, v) :: well_formed_prefix rest
  | _ => []
  end.

(** The key under which the gradient of a variable is offered. *)
Definition key_of (v : tf_variable) : string :=
  (name v ++ "_grad")%string.

(** The calls made between two worlds, the second reached from the first. *)
Definition since (w w' : world) : list event :=
  skipn (List.length (log w)) (log w').

Definition is_queue_call (e : event) : bool :=
  match e with
  | EvOffer _ _ | EvCommit _ => true
  | EvCompute _ _ _ | EvApply _ _ _ _ => false
  end.

(** The calls to the queue among some calls. *)
Definition queue_calls (evs : list event) : list event :=
  filter is_queue_call evs.

Definition is_apply_call (e : event) : bool :=
  match e with
  | EvApply _ _ _ _ => true
  | EvCompute _ _ _ | EvOffer _ _ | EvCommit _ => false
  end.

(** The calls of the wrapped optimizer's [apply_gradients] among some
    calls. *)
Definition apply_calls (evs : list event) : list event :=
  filter is_apply_call evs.

(** The keys offered to the queue among some calls, in order. *)
Fixpoint offered_keys (evs : list event) : list string :=
  match evs with
  | [] => []
  | EvOffer key _ :: rest => key :: offered_keys rest
  | _ :: rest => offered_keys rest
  end.

(** The calls that offer the given pairs, one after the other. *)
Definition offers (pairs : list pair) : list event :=
  map (fun p => EvOffer (key_of (snd p)) (fst p)) pairs.

(** The queue after it was offered the given pairs, one after the other. *)
Definition offered (qu : MaybeOutfeedQueue (T:=T) (kernel:=kernel) Q)
    (pairs : list pair) (q : Q) : Q :=
  fold_left (fun q p => maybe_outfeed qu (key_of (snd p)) (fst p) q) pairs q.

(** What a commit in scope [scope] hands back on queue state [q]. *)
Definition commit_of (qu : MaybeOutfeedQueue (T:=T) (kernel:=kernel) Q)
    (scope : list operation) (q : Q) : option operation :=
  option_map (fun k => Op k scope) (fst (maybe_enqueue qu q)).

(** The control inputs a commit imposes: the enqueue operation when there
    is one. *)
Definition gate (enqueue : option operation) : list operation :=
  match enqueue with
  | Some enq => [enq]
  | None => []
  end.

(** The world after the given pairs were offered, one after the other. *)
Definition after_offers (pairs : list pair) (w : world)
    : world :=
  World (this w) (opt w) (offered (_outfeed (this w)) pairs (queue w))
        (deps w) (next_id w) (log w ++ offers pairs).

(** What [_maybe_enqueue] hands back on well-formed pairs: the commit made
    once the pairs were offered, last pair first. *)
Definition enqueue_of (pairs : list pair) (w : world)
    : option operation :=
  commit_of (_outfeed (this w)) (deps w)
            (offered (_outfeed (this w)) (rev pairs) (queue w)).

(** The world [_maybe_enqueue] leaves on well-formed pairs; it has built one
    list, the reversed one. *)
Definition after_enqueue (pairs : list pair) (w : world)
    : world :=
  let q := offered (_outfeed (this w)) (rev pairs) (queue w) in
  World (this w) (opt w) (snd (maybe_enqueue (_outfeed (this w)) q))
        (deps w) (S (next_id w))
        (log w ++ offers (rev pairs) ++ [EvCommit (enqueue_of pairs w)]).

(** What the wrapped optimizer's [compute_gradients] and [apply_gradients]
    do on the given arguments, from the state it has in [w]. *)
Definition computed (w : world) (loss : tensor)
    (var_list : option (list tf_variable)) (kwargs : Kwargs)
    : (Err + list entry) * O :=
  opt_compute_gradients (_wrapped_optimizer (this w))
    loss var_list kwargs (opt w).

Definition applied (w : world) (grads_and_vars : list entry)
    (global_step : option tf_variable) (nm : option string)
    : (Err + kernel) * O :=
  opt_apply_gradients (_wrapped_optimizer (this w))
    grads_and_vars global_step nm (opt w).

(** The update operation built in scope [scope], or the exception. *)
Definition built (scope : list operation) (r : Err + kernel)
    : result (Err:=Err) operation :=
  match r with
  | inl e => Raise (Raised e)
  | inr k => Ok (Op k scope)
  end.

(** Whether the first pair of a sequence has [None] for a gradient. *)
Definition first_gradient_missing (pairs : list pair) : bool :=
  match pairs with
  | (None, _) :: _ => true
  | _ => false
  end.

(** The first gradient of a sequence behind an identity with the given
    control inputs, when there is a first gradient; every other pair as it
    is. *)
Definition first_behind_identity (ctrl : list operation)
    (pairs : list pair) : list pair :=
  match pairs with
  | (Some g, v) :: rest => (Some (Identity g ctrl), v) :: rest
  | _ => pairs
  end.

(** An operation with further control inputs after its own. *)
Definition behind (ctrl : list operation) (o : operation) : operation :=
  Op (op_kernel o) (op_ctrl o ++ ctrl).

(** The number of list objects [apply_gradients] builds in before-apply mode
    and [compute_gradients] builds after the wrapped call in after-compute
    mode, before the delegated work: the reversed list, and the list of
    control inputs when the commit handed back an operation. *)
Definition lists_built (enqueue : option operation) : nat :=
  match enqueue with
  | Some _ => 2
  | None => 1
  end.



Definition is_commit (e : event) : bool :=
  match e with
  | EvCommit _ => true
  | EvCompute _ _ _ | EvOffer _ _ | EvApply _ _ _ _ => false
  end.

(** The commits among some calls. *)
Definition commits (evs : list event) : list event :=
  filter is_commit evs.

(** What an entry carries: the value of its gradient, when it has one, and
    its variable when it has one. *)
Definition carried (e : entry) : option T * option pyobj :=
  match e with
  | Tuple2 g v => (option_map value_of g, Some v)
  | Tuple1 g => (option_map value_of g, None)
  end.

(** Whether an operation is among the control inputs of the gradient of
    some entry. *)
Definition attached (enq : operation) (l : list entry) : Prop :=
  exists g ctrl,
    (In (Tuple1 (Some (Identity g ctrl))) l \/
     exists v, In (Tuple2 (Some (Identity g ctrl)) v) l) /\ In enq ctrl.

(** The kernel of the operation a call returned, or the exception. *)
Definition outcome (r : result (Err:=Err) operation)
    : result (Err:=Err) kernel :=
  result_map (@op_kernel kernel) r.

End Vocabulary.

(** ** A small optimizer and a small graph, to run the wrapper on *)

Module Demo.

Inductive kernel : Type :=
| OutfeedEnqueue (keys : list string)
| AssignSub (names : list string) (global_step : option string).

Definition tensor := tensor (T:=string) (kernel:=kernel).
Definition entry := entry (T:=string) (kernel:=kernel).

(** The named variables of a list of entries, when all are well formed. *)
Fixpoint names_of (l : list entry) : option (list string) :=
  match l with
  | [] => Some []
  | Tuple2 _ (PyVariable v) :: rest => option_map (cons (name v)) (names_of rest)
  | _ :: _ => None
  end.

(** Whether some entry has a gradient. *)
Definition some_gradient (l : list entry) : bool :=
  existsb (fun e => match e with
                    | Tuple2 (Some _) _ | Tuple1 (Some _) => true
                    | _ => false
                    end) l.

(** The gradient the stand-in computes for a variable: a tensor named after
    it, or [None] for a variable named [frozen], which does not reach the
    loss. *)
Definition gradient_of (x : tf_variable) : option tensor :=
  if String.eqb (name x) "frozen" then None
  else Some (Produced (String.append "d_" (name x))).

(** A stand-in for the wrapped optimizer, which the wrapper receives as an
    argument: plain gradient descent.  A list that is empty, not made of
    (gradient, variable) pairs or without any gradient is rejected, and the
    optimizer's state counts the updates it has built. *)
Definition sgd : Optimizer (Err:=string) (Kwargs:=unit) nat :=
  {| opt_compute_gradients loss var_list _ n :=
       match var_list with
       | Some (v :: vs) =>
           (inr (map (fun x => Tuple2 (gradient_of x) (PyVariable x))
                     (v :: vs)), n)
       | _ => (inl "No variables to optimize."%string, n)
       end;
     opt_apply_gradients l global_step _ n :=
       match names_of l with
       | Some (x :: xs) =>
           if some_gradient l
           then (inr (AssignSub (x :: xs) (option_map name global_step)), S n)
           else (inl "No gradients provided for any variable."%string, n)
       | Some [] => (inl "No variables provided."%string, n)
       | None => (inl "Malformed gradients and variables."%string, n)
       end;
     opt_get_name _ := "GradientDescent"%string;
     opt_get_slot _ _ _ := None;
     opt_get_slot_names _ := [];
     opt_variables _ := [] |}.

(** The queue of the demonstration: its enqueue operation is named after the
    keys it sends. *)
Definition outfeed : MaybeOutfeedQueue queue_state :=
  filter_queue (T:=string) (fun vals => OutfeedEnqueue (map fst vals)).

(** A world just after construction: an empty graph, fresh collaborators. *)
Definition start (filters : option (list string))
    (mode : option OutfeedOptimizerMode) (nm : option string)
    : world (Err:=string) (Kwargs:=unit) :=
  World (__init__ sgd outfeed mode nm) 0 (new_queue filters) [] 0 [].

Definition A := Variable_ "A".
Definition B := Variable_ "B".
Definition gA : tensor := Produced "d_A"%string.
Definition gB : tensor := Produced "d_B"%string.
Definition loss : tensor := Produced "loss"%string.

(** Two well-formed pairs, and the list object that holds them. *)
Definition pairsAB : list (option tensor * tf_variable) :=
  [(Some gA, A); (Some gB, B)].
Definition listAB : pylist (T:=string) (kernel:=kernel) :=
  PyList 7 (of_pairs pairsAB).

(** Worlds just after construction: the default mode and after-compute mode
    with a filter that selects [A], after-compute mode with a filter that
    selects nothing. *)
Definition before_apply_world := start (Some ["A"%string]) None None.
Definition after_compute_world :=
  start (Some ["A"%string]) (Some AFTER_COMPUTE) None.
Definition after_compute_unselected :=
  start (Some ["C"%string]) (Some AFTER_COMPUTE) None.

(** The enqueue operation of [A]'s gradient, built in the empty scope. *)
Definition enqueue_A : operation (kernel:=kernel) :=
  Op (OutfeedEnqueue ["A_grad"%string]) [].

(** A list with an entry of one element between two well-formed pairs. *)
Definition broken : pylist (T:=string) (kernel:=kernel) :=
  PyList 9 [Tuple2 (Some gA) (PyVariable A); Tuple1 (Some gA);
            Tuple2 (Some gB) (PyVariable B)].

(** A stand-in for a wrapped optimizer that finds nothing to differentiate:
    its [compute_gradients] produces the empty list. *)
Definition idle : Optimizer (Err:=string) (Kwargs:=unit) nat :=
  {| opt_compute_gradients _ _ _ n := (inr [], n);
     opt_apply_gradients := opt_apply_gradients sgd;
     opt_get_name _ := "Idle"%string;
     opt_get_slot _ _ _ := None;
     opt_get_slot_names _ := [];
     opt_variables _ := [] |}.

(** The enqueue operation of a value offered under the key [act]. *)
Definition enqueue_act : operation (kernel:=kernel) :=
  Op (OutfeedEnqueue ["act"%string]) [].

(** A world in after-compute mode around [idle], whose queue, built without
    filters, retains a value offered to it from elsewhere. *)
Definition idle_world : world (Err:=string) (Kwargs:=unit) :=
  World (__init__ idle outfeed (Some AFTER_COMPUTE) None) 0
        (QueueState None [("act"%string, Some gA)] false) [] 0 [].

(** A world in the default mode, with a filter that selects [A], entered
    from inside a block that already has a control input. *)
Definition outer : operation (kernel:=kernel) :=
  Op (AssignSub ["outer"%string] None) [].
Definition scoped_world : world (Err:=string) (Kwargs:=unit) :=
  World (__init__ sgd outfeed None None) 0
        (new_queue (Some ["A"%string])) [outer] 0 [].

(** A variable that does not reach the loss, and the pairs the stand-in
    produces for it and [B]: the first gradient is [None]. *)
Definition frozen := Variable_ "frozen".
Definition pairs_frozenB : list (option tensor * tf_variable) :=
  [(None, frozen); (Some gB, B)].

(** A world in after-compute mode whose filter selects [B]; the enqueue
    operation of [B]'s gradient. *)
Definition after_compute_B :=
  start (Some ["B"%string]) (Some AFTER_COMPUTE) None.
Definition enqueue_B : operation (kernel:=kernel) :=
  Op (OutfeedEnqueue ["B_grad"%string]) [].

(** Two pairs without a gradient, and the list object that holds them. *)
Definition pairs_none : list (option tensor * tf_variable) :=
  [(None, A); (None, B)].
Definition list_none : pylist (T:=string) (kernel:=kernel) :=
  PyList 5 (of_pairs pairs_none).

(** A list whose only entry has [None] for a variable. *)
Definition nameless : pylist (T:=string) (kernel:=kernel) :=
  PyList 8 [Tuple2 (Some gA) PyNone].

End Demo.

(** ** Running the wrapper on well-formed pairs *)

Section Properties.

Context {T kernel Err Kwargs O Q : Type}.

Local Abbreviation tensor := (tensor (T:=T) (kernel:=kernel)).
Local Abbreviation entry := (entry (T:=T) (kernel:=kernel)).
Local Abbreviation pylist := (pylist (T:=T) (kernel:=kernel)).
Local Abbreviation operation := (operation (kernel:=kernel)).
Local Abbreviation event := (event (T:=T) (kernel:=kernel) (Kwargs:=Kwargs)).
Local Abbreviation world :=
  (world (T:=T) (kernel:=kernel) (Err:=Err) (Kwargs:=Kwargs) (O:=O) (Q:=Q)).

Implicit Types (w : world) (pairs : list (option tensor * tf_variable))
  (grads_and_vars : pylist) (global_step : option tf_variable)
  (nm : option string).

Lemma with_deps_deps w : with_deps (deps w) w = w.
Proof. now destruct w. Qed.

Lemma first_fault_of_pairs pairs :
  first_fault (Err:=Err) (of_pairs pairs) = None.
Proof. induction pairs as [|[g v] rest IH]; simpl; auto. Qed.

Lemma well_formed_prefix_of_pairs pairs :
  well_formed_prefix (of_pairs pairs) = pairs.
Proof.
  induction pairs as [|[g v] rest IH]; simpl; [reflexivity|].
  now rewrite IH.
Qed.

(** An entry list without a fault is a list of well-formed pairs. *)
Lemma no_fault_of_pairs (l : list entry) :
  first_fault (Err:=Err) l = None -> l = of_pairs (well_formed_prefix l).
Proof.
  induction l as [|e rest IH]; simpl; [reflexivity|].
  destruct e as [g [v|]|g]; simpl; try discriminate.
  intro H. now rewrite <- IH.
Qed.

Lemma first_fault_app (l1 l2 : list entry) :
  first_fault (Err:=Err) (l1 ++ l2) =
  match first_fault (Err:=Err) l1 with
  | Some x => Some x
  | None => first_fault l2
  end.
Proof.
  induction l1 as [|e rest IH]; simpl; [reflexivity|].
  destruct (fault e); auto.
Qed.

Lemma no_fault_rev (l : list entry) :
  first_fault (Err:=Err) (rev l) = None -> first_fault (Err:=Err) l = None.
Proof.
  induction l as [|e rest IH]; simpl; [reflexivity|].
  rewrite first_fault_app. simpl.
  destruct (first_fault (rev rest)); [discriminate|].
  destruct (fault e); [discriminate|]. auto.
Qed.

(** The loop of [_maybe_enqueue] on any list: it offers the well-formed
    pairs in front of the first faulty entry, and stops there. *)
Lemma for_offer_run (l : list entry) :
  forall w,
    for_ l offer w =
    (match first_fault l with
     | None => Ok tt
     | Some x => Raise x
     end, after_offers (well_formed_prefix l) w).
Proof.
  induction l as [|e rest IH]; intro w.
  - unfold after_offers, offers, offered; simpl.
    rewrite app_nil_r. now destruct w.
  - destruct e as [g [v|]|g]; simpl.
    + unfold bind at 1. unfold offer at 1. unfold bind; simpl.
      rewrite IH. unfold after_offers; simpl.
      rewrite <- app_assoc. reflexivity.
    + unfold bind, offer, bind, after_offers, offers, offered; simpl.
      rewrite app_nil_r. now destruct w.
    + unfold bind, offer, bind, after_offers, offers, offered; simpl.
      rewrite app_nil_r. now destruct w.
Qed.

Lemma for_offer_of_pairs pairs w :
  for_ (of_pairs pairs) offer w = (Ok tt, after_offers pairs w).
Proof.
  rewrite for_offer_run.
  now rewrite first_fault_of_pairs, well_formed_prefix_of_pairs.
Qed.

Lemma of_pairs_rev pairs : rev (of_pairs pairs) = of_pairs (rev pairs).
Proof. unfold of_pairs. now rewrite map_rev. Qed.

Lemma run_maybe_enqueue grads_and_vars pairs w :
  items grads_and_vars = of_pairs pairs ->
  _maybe_enqueue grads_and_vars w =
  (Ok (enqueue_of pairs w), after_enqueue pairs w).
Proof.
  intro H. unfold _maybe_enqueue, bind, new_list. simpl.
  rewrite H, of_pairs_rev, for_offer_of_pairs.
  unfold call_maybe_enqueue, after_enqueue, enqueue_of, commit_of; simpl.
  destruct (maybe_enqueue _ _) as [r q]; simpl.
  unfold logged; simpl. rewrite <- app_assoc. reflexivity.
Qed.

Lemma run_maybe_enqueue_fault grads_and_vars x w :
  first_fault (rev (items grads_and_vars)) = Some x ->
  _maybe_enqueue grads_and_vars w =
  (Raise x,
   after_offers (well_formed_prefix (rev (items grads_and_vars)))
     (with_next_id (S (next_id w)) w)).
Proof.
  intro H. unfold _maybe_enqueue, bind, new_list. simpl.
  now rewrite for_offer_run, H.
Qed.

Lemma run_call_apply grads_and_vars global_step nm w :
  call_apply_gradients grads_and_vars global_step nm w =
  (built (deps w) (fst (applied w (items grads_and_vars) global_step nm)),
   World (this w) (snd (applied w (items grads_and_vars) global_step nm))
         (queue w) (deps w) (next_id w)
         (log w ++ [EvApply (items grads_and_vars) global_step nm (deps w)])).
Proof.
  unfold call_apply_gradients, applied.
  destruct (opt_apply_gradients _ _ _ _ _) as [[e|k] o]; reflexivity.
Qed.

Lemma run_call_compute loss var_list kwargs w :
  call_compute_gradients loss var_list kwargs w =
  (match fst (computed w loss var_list kwargs) with
   | inl e => Raise (Raised e)
   | inr l => Ok (PyList (next_id w) l)
   end,
   World (this w) (snd (computed w loss var_list kwargs)) (queue w) (deps w)
         (match fst (computed w loss var_list kwargs) with
          | inl _ => next_id w
          | inr _ => S (next_id w)
          end)
         (log w ++ [EvCompute loss var_list kwargs])).
Proof.
  unfold call_compute_gradients, computed.
  destruct (opt_compute_gradients _ _ _ _ _) as [[e|l] o]; reflexivity.
Qed.

(** In after-compute mode [apply_gradients] is the wrapped call, whatever
    the list. *)
Lemma run_apply_after_compute grads_and_vars global_step nm w :
  _outfeed_optimizer_mode (this w) = AFTER_COMPUTE ->
  apply_gradients grads_and_vars global_step nm w =
  call_apply_gradients grads_and_vars global_step nm w.
Proof.
  intro H. unfold apply_gradients, bind, getattr. now rewrite H.
Qed.

(** In before-apply mode, on well-formed pairs. *)
Lemma run_apply_before_apply grads_and_vars pairs global_step nm w :
  _outfeed_optimizer_mode (this w) = BEFORE_APPLY ->
  items grads_and_vars = of_pairs pairs ->
  let enq := enqueue_of pairs w in
  let scope := deps w ++ gate enq in
  let r := applied w (items grads_and_vars) global_step nm in
  apply_gradients grads_and_vars global_step nm w =
  (built scope (fst r),
   World (this w) (snd r) (queue (after_enqueue pairs w)) (deps w)
         (lists_built enq + next_id w)
         (log w ++ offers (rev pairs) ++
          [EvCommit enq;
           EvApply (items grads_and_vars) global_step nm scope])).
Proof.
  intros Hm Hi enq scope r.
  unfold apply_gradients, bind, getattr. rewrite Hm; simpl.
  rewrite run_maybe_enqueue with (pairs := pairs) by exact Hi.
  subst scope r enq. destruct (enqueue_of pairs w) as [e|] eqn:He; simpl.
  - unfold control_dependencies. rewrite run_call_apply. simpl.
    unfold with_deps, applied; simpl.
    rewrite <- !app_assoc, He. reflexivity.
  - rewrite run_call_apply. simpl. unfold applied; simpl.
    rewrite <- !app_assoc, He, app_nil_r. reflexivity.
Qed.

(** In before-apply mode, on a list with a faulty entry. *)
Lemma run_apply_fault grads_and_vars x global_step nm w :
  _outfeed_optimizer_mode (this w) = BEFORE_APPLY ->
  first_fault (rev (items grads_and_vars)) = Some x ->
  apply_gradients grads_and_vars global_step nm w =
  (Raise x,
   after_offers (well_formed_prefix (rev (items grads_and_vars)))
     (with_next_id (S (next_id w)) w)).
Proof.
  intros Hm Hf.
  unfold apply_gradients, bind, getattr. rewrite Hm; simpl.
  now rewrite run_maybe_enqueue_fault with (x := x) by exact Hf.
Qed.

(** Past the first index the comprehension copies the pairs. *)
Lemma comprehension_attach_rest pairs :
  forall k w,
    comprehension attach
      (combine (seq (S k) (List.length pairs)) (of_pairs pairs)) w =
    (Ok (of_pairs pairs), w).
Proof.
  induction pairs as [|[g v] rest IH]; intros k w; simpl; [reflexivity|].
  unfold bind at 1. unfold attach at 1. unfold bind; simpl.
  now rewrite IH.
Qed.

(** The comprehension of [compute_gradients] puts the first gradient behind
    an identity built in the scope in force, and fails on it when it is
    [None]. *)
Lemma comprehension_attach pairs w :
  comprehension attach (enumerate (of_pairs pairs)) w =
  (if first_gradient_missing pairs
   then Raise ValueError_none
   else Ok (of_pairs (first_behind_identity (deps w) pairs)), w).
Proof.
  unfold enumerate, of_pairs at 1. rewrite length_map.
  destruct pairs as [|[[g|] v] rest]; simpl; [reflexivity| |reflexivity].
  unfold bind at 1. unfold attach at 1. unfold bind; simpl.
  fold (of_pairs rest). now rewrite comprehension_attach_rest.
Qed.

(** In before-apply mode [compute_gradients] is the wrapped call. *)
Lemma run_compute_before_apply loss var_list kwargs w :
  _outfeed_optimizer_mode (this w) = BEFORE_APPLY ->
  compute_gradients loss var_list kwargs w =
  call_compute_gradients loss var_list kwargs w.
Proof.
  intro H. unfold compute_gradients, bind, getattr.
  rewrite run_call_compute.
  destruct (fst (computed w loss var_list kwargs)); simpl; [reflexivity|].
  now rewrite H.
Qed.

(** In after-compute mode, when the wrapped optimizer produced well-formed
    pairs. *)
Lemma run_compute_after_compute loss var_list kwargs pairs w :
  _outfeed_optimizer_mode (this w) = AFTER_COMPUTE ->
  fst (computed w loss var_list kwargs) = inr (of_pairs pairs) ->
  let enq := enqueue_of pairs w in
  compute_gradients loss var_list kwargs w =
  (match enq with
   | Some e =>
       if first_gradient_missing pairs
       then Raise ValueError_none
       else Ok (PyList (3 + next_id w)
                  (of_pairs (first_behind_identity (deps w ++ [e]) pairs)))
   | None => Ok (PyList (next_id w) (of_pairs pairs))
   end,
   World (this w) (snd (computed w loss var_list kwargs))
         (queue (after_enqueue pairs w)) (deps w)
         (match enq with
          | Some _ =>
              if first_gradient_missing pairs
              then 3 + next_id w
              else 4 + next_id w
          | None => 2 + next_id w
          end)
         (log w ++ EvCompute loss var_list kwargs :: offers (rev pairs) ++
          [EvCommit enq])).
Proof.
  intros Hm Hc enq. subst enq.
  unfold compute_gradients, bind, getattr.
  rewrite run_call_compute, Hc; simpl. rewrite Hm; simpl.
  rewrite run_maybe_enqueue with (pairs := pairs) by reflexivity.
  unfold after_enqueue, enqueue_of; simpl.
  fold (enqueue_of pairs w).
  destruct (enqueue_of pairs w) as [e|] eqn:He; simpl.
  - unfold control_dependencies, bind. simpl.
    rewrite comprehension_attach; simpl.
    destruct (first_gradient_missing pairs); simpl;
      unfold with_deps, with_next_id, new_list; simpl;
      rewrite <- !app_assoc; reflexivity.
  - rewrite <- !app_assoc. reflexivity.
Qed.

(** When the wrapped optimizer raises, so does [compute_gradients], in
    either mode. *)
Lemma run_compute_raise loss var_list kwargs e w :
  fst (computed w loss var_list kwargs) = inl e ->
  compute_gradients loss var_list kwargs w =
  call_compute_gradients loss var_list kwargs w.
Proof.
  intro H. unfold compute_gradients, bind.
  rewrite run_call_compute, H. reflexivity.
Qed.

(** In after-compute mode, when the wrapped optimizer produced a list with a
    faulty entry. *)
Lemma run_compute_fault loss var_list kwargs l x w :
  _outfeed_optimizer_mode (this w) = AFTER_COMPUTE ->
  fst (computed w loss var_list kwargs) = inr l ->
  first_fault (rev l) = Some x ->
  compute_gradients loss var_list kwargs w =
  (Raise x,
   after_offers (well_formed_prefix (rev l))
     (with_next_id (2 + next_id w)
        (snd (call_compute_gradients loss var_list kwargs w)))).
Proof.
  intros Hm Hc Hf. unfold compute_gradients, bind, getattr.
  rewrite run_call_compute, Hc; simpl. rewrite Hm; simpl.
  rewrite run_maybe_enqueue_fault with (x := x) by exact Hf.
  reflexivity.
Qed.

Lemma since_app w w' (evs : list event) :
  log w' = log w ++ evs -> since w w' = evs.
Proof.
  intro H. unfold since. rewrite H, skipn_app, skipn_all, Nat.sub_diag.
  reflexivity.
Qed.

Lemma offered_keys_app (l1 l2 : list event) :
  offered_keys (l1 ++ l2) = offered_keys l1 ++ offered_keys l2.
Proof.
  induction l1 as [|e rest IH]; simpl; [reflexivity|].
  destruct e; simpl; now rewrite IH.
Qed.

Lemma offered_keys_offers pairs :
  offered_keys (offers (Kwargs:=Kwargs) pairs) = map key_of (map snd pairs).
Proof.
  induction pairs as [|[g v] rest IH]; simpl; [reflexivity|].
  now rewrite IH.
Qed.

Lemma queue_calls_app (l1 l2 : list event) :
  queue_calls (l1 ++ l2) = queue_calls l1 ++ queue_calls l2.
Proof. apply filter_app. Qed.

Lemma queue_calls_offers pairs :
  queue_calls (offers (Kwargs:=Kwargs) pairs) = offers pairs.
Proof.
  induction pairs as [|[g v] rest IH]; [reflexivity|].
  unfold queue_calls, offers in *. simpl. now rewrite IH.
Qed.

Lemma outcome_built (scope : list operation) (r : Err + kernel) :
  outcome (built scope r) =
  match r with
  | inl e => Raise (Raised e)
  | inr k => Ok k
  end.
Proof. now destruct r. Qed.

Lemma mode_cases (m : OutfeedOptimizerMode) :
  m = AFTER_COMPUTE \/ m = BEFORE_APPLY.
Proof. destruct m; auto. Qed.

Lemma no_fault_rev_of_pairs (l : list entry) :
  first_fault (Err:=Err) (rev l) = None -> l = of_pairs (well_formed_prefix l).
Proof. intro H. now apply no_fault_of_pairs, no_fault_rev. Qed.

(** Whatever the arguments, the attributes of the instance, the wrapped
    optimizer aside, and the scope are after a call what they were before
    it. *)
Lemma apply_gradients_frame grads_and_vars global_step nm w :
  this (snd (apply_gradients grads_and_vars global_step nm w)) = this w /\
  deps (snd (apply_gradients grads_and_vars global_step nm w)) = deps w.
Proof.
  destruct (mode_cases (_outfeed_optimizer_mode (this w))) as [Hm|Hm].
  - rewrite run_apply_after_compute, run_call_apply by assumption. now split.
  - destruct (first_fault (Err:=Err) (rev (items grads_and_vars)))
      as [x|] eqn:Hf.
    + rewrite run_apply_fault with (x := x) by assumption. now split.
    + apply no_fault_rev_of_pairs in Hf.
      rewrite run_apply_before_apply
        with (pairs := well_formed_prefix (items grads_and_vars))
        by assumption.
      now split.
Qed.

Lemma compute_gradients_frame loss var_list kwargs w :
  this (snd (compute_gradients loss var_list kwargs w)) = this w /\
  deps (snd (compute_gradients loss var_list kwargs w)) = deps w.
Proof.
  destruct (fst (computed w loss var_list kwargs)) as [e|l] eqn:Hc.
  - rewrite run_compute_raise with (e := e), run_call_compute by assumption.
    now split.
  - destruct (mode_cases (_outfeed_optimizer_mode (this w))) as [Hm|Hm].
    + destruct (first_fault (Err:=Err) (rev l)) as [x|] eqn:Hf.
      * rewrite run_compute_fault with (l := l) (x := x) by assumption.
        rewrite run_call_compute. now split.
      * apply no_fault_rev_of_pairs in Hf. rewrite Hf in Hc.
        rewrite run_compute_after_compute
          with (pairs := well_formed_prefix l) by assumption.
        now split.
    + rewrite run_compute_before_apply, run_call_compute by assumption.
      now split.
Qed.

Lemma apply_calls_app (l1 l2 : list event) :
  apply_calls (l1 ++ l2) = apply_calls l1 ++ apply_calls l2.
Proof. apply filter_app. Qed.

Lemma apply_calls_offers pairs :
  apply_calls (offers (Kwargs:=Kwargs) pairs) = [].
Proof.
  induction pairs as [|[g v] rest IH]; [reflexivity|].
  unfold apply_calls, offers in *. simpl. exact IH.
Qed.

Lemma first_fault_kind (l : list entry) (x : exn) :
  first_fault (Err:=Err) l = Some x ->
  x = ValueError_unpack \/ x = AttributeError_name.
Proof.
  induction l as [|e rest IH]; simpl; [discriminate|].
  destruct e as [g [v|]|g]; simpl; auto; intro H; inversion H; auto.
Qed.

Lemma apply_gradients_queue_calls grads_and_vars pairs global_step nm w :
  _outfeed_optimizer_mode (this w) = BEFORE_APPLY ->
  items grads_and_vars = of_pairs pairs ->
  queue_calls
    (since w (snd (apply_gradients grads_and_vars global_step nm w))) =
  offers (rev pairs) ++ [EvCommit (enqueue_of pairs w)].
Proof.
  intros Hm Hi.
  rewrite run_apply_before_apply with (pairs := pairs) by assumption.
  rewrite since_app
    with (evs := offers (rev pairs) ++
                 [EvCommit (enqueue_of pairs w);
                  EvApply (items grads_and_vars) global_step nm
                          (deps w ++ gate (enqueue_of pairs w))])
    by reflexivity.
  now rewrite queue_calls_app, queue_calls_offers.
Qed.

(** ** The claims *)

(** C1. For every list of well-formed (gradient, variable) pairs, every
    optional step counter and name, and either mode, [apply_gradients] calls
    the wrapped optimizer's [apply_gradients] once, on the arguments as they
    came and in the state the wrapped optimizer was in, and returns what
    that call yields: the operation returned computes the kernel the wrapped
    optimizer yielded (the update and the step increment), or the call
    raises the wrapped optimizer's exception, and the wrapped optimizer is
    left in the state its own method left it, whatever the queue retained.
    The operation is that of a direct call in the caller's scope, but for
    the enqueue operation it has as a last control input when the mode is
    before-apply and the commit handed one back. *)
Theorem apply_gradients_refines_wrapped
    w grads_and_vars pairs global_step nm :
  items grads_and_vars = of_pairs pairs ->
  let r := apply_gradients grads_and_vars global_step nm w in
  let wrapped := applied w (items grads_and_vars) global_step nm in
  let direct := call_apply_gradients grads_and_vars global_step nm w in
  let added :=
    if mode_eqb (_outfeed_optimizer_mode (this w)) BEFORE_APPLY
    then gate (enqueue_of pairs w)
    else [] in
  outcome (fst r) =
  match fst wrapped with
  | inl e => Raise (Raised e)
  | inr k => Ok k
  end /\
  opt (snd r) = snd wrapped /\
  apply_calls (since w (snd r)) =
  [EvApply (items grads_and_vars) global_step nm (deps w ++ added)] /\
  outcome (fst r) = outcome (fst direct) /\
  opt (snd r) = opt (snd direct) /\
  fst r = built (deps w ++ added) (fst wrapped) /\
  fst r = result_map (behind added) (fst direct).
Proof.
  intros Hi r wrapped direct added. subst r wrapped direct added.
  destruct (mode_cases (_outfeed_optimizer_mode (this w))) as [Hm|Hm].
  - rewrite run_apply_after_compute by assumption. rewrite Hm. simpl.
    rewrite run_call_apply. simpl. rewrite !outcome_built, !app_nil_r.
    repeat split.
    + now erewrite since_app by reflexivity.
    + destruct (fst (applied w (items grads_and_vars) global_step nm));
        simpl; [reflexivity|]. unfold behind. simpl. now rewrite app_nil_r.
  - rewrite run_apply_before_apply with (pairs := pairs) by assumption.
    rewrite run_call_apply, Hm. simpl. rewrite !outcome_built.
    repeat split.
    + erewrite since_app by reflexivity.
      now rewrite apply_calls_app, apply_calls_offers.
    + now destruct (fst (applied w (items grads_and_vars) global_step nm)).
Qed.

(** C2. Whatever the queue and its filter, on a list of well-formed pairs
    [_maybe_enqueue] offers every pair, last pair first, under the name of
    its variable followed by [_grad], and then commits; so does
    [apply_gradients] in before-apply mode, and so does [compute_gradients]
    in after-compute mode on the pairs the wrapped optimizer produced. *)
Theorem offers_are_reversed_suffixed_names w grads_and_vars pairs :
  items grads_and_vars = of_pairs pairs ->
  let keys :=
    map (fun v => (name v ++ "_grad")%string) (rev (map snd pairs)) in
  let calls : list event :=
    offers (rev pairs) ++ [EvCommit (enqueue_of pairs w)] in
  (offered_keys (since w (snd (_maybe_enqueue grads_and_vars w))) = keys /\
   queue_calls (since w (snd (_maybe_enqueue grads_and_vars w))) = calls) /\
  (_outfeed_optimizer_mode (this w) = BEFORE_APPLY ->
   forall global_step nm,
     let w' := snd (apply_gradients grads_and_vars global_step nm w) in
     offered_keys (since w w') = keys /\ queue_calls (since w w') = calls) /\
  (_outfeed_optimizer_mode (this w) = AFTER_COMPUTE ->
   forall loss var_list kwargs,
     fst (computed w loss var_list kwargs) = inr (items grads_and_vars) ->
     let w' := snd (compute_gradients loss var_list kwargs w) in
     offered_keys (since w w') = keys /\ queue_calls (since w w') = calls).
Proof.
  intros Hi keys calls.
  assert (Hk : offered_keys calls = keys).
  { subst keys calls. rewrite offered_keys_app, offered_keys_offers; simpl.
    now rewrite app_nil_r, map_rev. }
  assert (Hq : queue_calls calls = calls).
  { subst calls. now rewrite queue_calls_app, queue_calls_offers. }
  split; [|split].
  - rewrite run_maybe_enqueue with (pairs := pairs) by assumption.
    rewrite since_app with (evs := calls) by reflexivity. now split.
  - intros Hm global_step nm w'. subst w'.
    rewrite run_apply_before_apply with (pairs := pairs) by assumption.
    rewrite since_app with
      (evs := calls ++
              [EvApply (items grads_and_vars) global_step nm
                       (deps w ++ gate (enqueue_of pairs w))]).
    + rewrite offered_keys_app, queue_calls_app, Hk, Hq. simpl.
      now rewrite !app_nil_r.
    + simpl. subst calls. now rewrite <- !app_assoc.
  - intros Hm loss var_list kwargs Hc w'. subst w'. rewrite Hi in Hc.
    rewrite run_compute_after_compute with (pairs := pairs) by assumption.
    rewrite since_app with (evs := EvCompute loss var_list kwargs :: calls)
      by reflexivity.
    simpl. now split.
Qed.

(** C3. Where the claim fails.  In after-compute mode, when the first pair
    the wrapped optimizer produced has no gradient ([None], as for a
    variable that does not reach the loss) and the commit hands back an
    enqueue operation, [compute_gradients] returns no sequence: it raises
    the exception of [array_ops.identity] on [None], after the wrapped
    optimizer computed the pairs, every pair was offered and the commit was
    made. *)
Theorem compute_gradients_raises_on_missing_first_gradient
    w loss var_list kwargs (v : tf_variable) rest (enq : operation) :
  _outfeed_optimizer_mode (this w) = AFTER_COMPUTE ->
  fst (computed w loss var_list kwargs) = inr (of_pairs ((None, v) :: rest)) ->
  enqueue_of ((None, v) :: rest) w = Some enq ->
  let r := compute_gradients loss var_list kwargs w in
  fst r = Raise ValueError_none /\
  since w (snd r) =
  EvCompute loss var_list kwargs
  :: offers (rev ((None, v) :: rest)) ++ [EvCommit (Some enq)] /\
  opt (snd r) = snd (computed w loss var_list kwargs).
Proof.
  intros Hm Hc He r. subst r.
  rewrite run_compute_after_compute with (pairs := (None, v) :: rest)
    by assumption.
  rewrite He. simpl. repeat split.
  now apply since_app.
Qed.

(** C4. In after-compute mode, when the commit hands back nothing,
    [compute_gradients] returns the very list object the wrapped optimizer
    produced, same identity and same elements, and does nothing after the
    commit. *)
Theorem compute_gradients_returns_produced_list
    w loss var_list kwargs produced w1 :
  _outfeed_optimizer_mode (this w) = AFTER_COMPUTE ->
  call_compute_gradients loss var_list kwargs w = (Ok produced, w1) ->
  fst (_maybe_enqueue produced w1) = Ok None ->
  fst (compute_gradients loss var_list kwargs w) = Ok produced /\
  snd (compute_gradients loss var_list kwargs w) =
  snd (_maybe_enqueue produced w1).
Proof.
  intros Hm Hc Hn.
  assert (Ht : this w1 = this w).
  { rewrite run_call_compute in Hc. inversion Hc. reflexivity. }
  unfold compute_gradients, bind, getattr. rewrite Hc; simpl.
  rewrite Ht, Hm; simpl.
  destruct (_maybe_enqueue produced w1) as [[[e|]|x] w2] eqn:Hq;
    simpl in Hn; try discriminate.
  simpl. now split.
Qed.

(** C5. Whatever the instance and whatever the arguments, no method
    changes an attribute of the instance (the wrapped optimizer, the queue,
    the mode, as [__init__] set them), and exactly one of the two methods
    calls the queue: in after-compute mode [apply_gradients] makes no call
    to the queue and leaves it as it is, while [compute_gradients] offers
    and commits; in before-apply mode it is the other way round. *)
Theorem configuration_fixed_one_interception_point w :
  ((forall loss var_list kwargs,
      this (snd (compute_gradients loss var_list kwargs w)) = this w) /\
   (forall grads_and_vars global_step nm,
      this (snd (apply_gradients grads_and_vars global_step nm w)) = this w) /\
   snd (get_name w) = w /\
   (forall var slot_name, snd (get_slot var slot_name w) = w) /\
   snd (get_slot_names w) = w /\
   snd (variables w) = w) /\
  ((_outfeed_optimizer_mode (this w) = AFTER_COMPUTE /\
    (forall grads_and_vars global_step nm,
       let w' := snd (apply_gradients grads_and_vars global_step nm w) in
       queue_calls (since w w') = [] /\ queue w' = queue w) /\
    (forall loss var_list kwargs pairs,
       fst (computed w loss var_list kwargs) = inr (of_pairs pairs) ->
       let w' := snd (compute_gradients loss var_list kwargs w) in
       queue_calls (since w w') =
       offers (rev pairs) ++ [EvCommit (enqueue_of pairs w)])) \/
   (_outfeed_optimizer_mode (this w) = BEFORE_APPLY /\
    (forall loss var_list kwargs,
       let w' := snd (compute_gradients loss var_list kwargs w) in
       queue_calls (since w w') = [] /\ queue w' = queue w) /\
    (forall grads_and_vars pairs global_step nm,
       items grads_and_vars = of_pairs pairs ->
       let w' := snd (apply_gradients grads_and_vars global_step nm w) in
       queue_calls (since w w') =
       offers (rev pairs) ++ [EvCommit (enqueue_of pairs w)]))).
Proof.
  split.
  - repeat split; try reflexivity.
    + intros. apply compute_gradients_frame.
    + intros. apply apply_gradients_frame.
  - destruct (mode_cases (_outfeed_optimizer_mode (this w))) as [Hm|Hm];
      [left|right]; (split; [exact Hm|split]).
    + intros grads_and_vars global_step nm w'. subst w'.
      rewrite run_apply_after_compute, run_call_apply by assumption.
      rewrite since_app
        with (evs := [EvApply (items grads_and_vars) global_step nm (deps w)])
        by reflexivity.
      now split.
    + intros loss var_list kwargs pairs Hc w'. subst w'.
      rewrite run_compute_after_compute with (pairs := pairs) by assumption.
      rewrite since_app
        with (evs := EvCompute loss var_list kwargs
                     :: offers (rev pairs) ++ [EvCommit (enqueue_of pairs w)])
        by reflexivity.
      simpl. now rewrite queue_calls_app, queue_calls_offers.
    + intros loss var_list kwargs w'. subst w'.
      rewrite run_compute_before_apply, run_call_compute by assumption.
      rewrite since_app with (evs := [EvCompute loss var_list kwargs])
        by reflexivity.
      now split.
    + intros grads_and_vars pairs global_step nm Hi w'. subst w'.
      now apply apply_gradients_queue_calls.
Qed.


(** C7. Where the claim fails.  On a list whose entry has [None] for a
    variable, [apply_gradients] in before-apply mode raises the exception of
    [v.name] from its own offer loop: the wrapped optimizer is not called
    and stays as it was, so the exception is not one of the wrapped
    optimizer.  In after-compute mode the same list goes to the wrapped
    optimizer, and the call yields what the wrapped optimizer yields on
    it. *)
Theorem apply_gradients_fails_in_loop_on_nameless_variable
    w grads_and_vars (g : option tensor) global_step nm :
  items grads_and_vars = [Tuple2 g PyNone] ->
  let r := apply_gradients grads_and_vars global_step nm w in
  let wrapped := applied w (items grads_and_vars) global_step nm in
  (_outfeed_optimizer_mode (this w) = BEFORE_APPLY ->
   fst r = Raise AttributeError_name /\
   (forall e : Err, fst r <> Raise (Raised e)) /\
   since w (snd r) = [] /\
   opt (snd r) = opt w) /\
  (_outfeed_optimizer_mode (this w) = AFTER_COMPUTE ->
   fst r = built (deps w) (fst wrapped) /\
   opt (snd r) = snd wrapped /\
   since w (snd r) =
   [EvApply (items grads_and_vars) global_step nm (deps w)]).
Proof.
  intros Hi r wrapped. subst r wrapped. split; intro Hm.
  - rewrite run_apply_fault with (x := AttributeError_name)
      by (try assumption; now rewrite Hi).
    rewrite Hi. simpl. repeat split.
    + intros e H. discriminate H.
    + apply since_app. simpl. now rewrite app_nil_r.
  - rewrite run_apply_after_compute, run_call_apply by assumption.
    simpl. repeat split. now apply since_app.
Qed.

(** C8. Each of the four accessors returns what the accessor of the wrapped
    optimizer returns on the same arguments, and changes nothing; two
    instances that wrap the same optimizer in the same state answer alike,
    whatever their own attributes, their queue and the graph are. *)
Theorem accessors_delegate w var slot_name :
  (get_name w =
   (Ok (opt_get_name (_wrapped_optimizer (this w)) (opt w)), w) /\
   get_slot var slot_name w =
   (Ok (opt_get_slot (_wrapped_optimizer (this w)) var slot_name (opt w)),
    w) /\
   get_slot_names w =
   (Ok (opt_get_slot_names (_wrapped_optimizer (this w)) (opt w)), w) /\
   variables w =
   (Ok (opt_variables (_wrapped_optimizer (this w)) (opt w)), w)) /\
  (forall w',
     _wrapped_optimizer (this w') = _wrapped_optimizer (this w) ->
     opt w' = opt w ->
     fst (get_name w') = fst (get_name w) /\
     fst (get_slot var slot_name w') = fst (get_slot var slot_name w) /\
     fst (get_slot_names w') = fst (get_slot_names w) /\
     fst (variables w') = fst (variables w)).
Proof.
  split; [repeat split|].
  intros w' Hw Ho. unfold get_name, get_slot, get_slot_names, variables.
  simpl. rewrite Hw, Ho. repeat split.
Qed.

(** C9. An instance built without a mode is in before-apply mode: its
    [compute_gradients] is the wrapped call and never calls the queue, and
    its [apply_gradients] offers the pairs and commits. *)
Theorem default_mode_is_before_apply
    w (wrapped : Optimizer O) (outfeed_queue : MaybeOutfeedQueue Q)
    (name_arg : option string) :
  this w = __init__ wrapped outfeed_queue None name_arg ->
  _outfeed_optimizer_mode (this w) = BEFORE_APPLY /\
  (forall loss var_list kwargs,
     let r := compute_gradients loss var_list kwargs w in
     r = call_compute_gradients loss var_list kwargs w /\
     queue_calls (since w (snd r)) = [] /\
     queue (snd r) = queue w) /\
  (forall grads_and_vars pairs global_step nm,
     items grads_and_vars = of_pairs pairs ->
     let r := apply_gradients grads_and_vars global_step nm w in
     queue_calls (since w (snd r)) =
     offers (rev pairs) ++ [EvCommit (enqueue_of pairs w)]).
Proof.
  intro Ht.
  assert (Hm : _outfeed_optimizer_mode (this w) = BEFORE_APPLY)
    by now rewrite Ht.
  split; [exact Hm|split].
  - intros loss var_list kwargs r. subst r.
    rewrite run_compute_before_apply, run_call_compute by assumption.
    rewrite since_app with (evs := [EvCompute loss var_list kwargs])
      by reflexivity.
    now repeat split.
  - intros grads_and_vars pairs global_step nm Hi r. subst r.
    now apply apply_gradients_queue_calls.
Qed.

(** C10. Whatever name is given to the constructor, or none, [get_name]
    returns the name of the wrapped optimizer; the name given is kept in
    [_name] and not looked at. *)
Theorem get_name_ignores_constructor_name
    w (wrapped : Optimizer O) (outfeed_queue : MaybeOutfeedQueue Q)
    (mode : option OutfeedOptimizerMode) (name_arg : option string) :
  this w = __init__ wrapped outfeed_queue mode name_arg ->
  fst (get_name w) = Ok (opt_get_name wrapped (opt w)) /\
  _name (this w) = match name_arg with
                   | Some n => n
                   | None => "OutfeedOptimizer"%string
                   end.
Proof.
  intro Ht. unfold get_name. simpl. now rewrite Ht.
Qed.

End Properties.

(** ** Failures, edges and one whole step *)

Section Further.

Context {T kernel Err Kwargs O Q : Type}.

Local Abbreviation tensor := (tensor (T:=T) (kernel:=kernel)).
Local Abbreviation entry := (entry (T:=T) (kernel:=kernel)).
Local Abbreviation pylist := (pylist (T:=T) (kernel:=kernel)).
Local Abbreviation operation := (operation (kernel:=kernel)).
Local Abbreviation event := (event (T:=T) (kernel:=kernel) (Kwargs:=Kwargs)).
Local Abbreviation world :=
  (world (T:=T) (kernel:=kernel) (Err:=Err) (Kwargs:=Kwargs) (O:=O) (Q:=Q)).

Implicit Types (w : world) (pairs : list (option tensor * tf_variable))
  (grads_and_vars : pylist) (global_step : option tf_variable)
  (nm : option string).

(** A list with a fault is its well-formed front, the faulty entry, and a
    rest. *)
Lemma first_fault_split (l : list entry) (x : exn) :
  first_fault (Err:=Err) l = Some x ->
  exists bad rest,
    fault bad = Some x /\
    l = of_pairs (well_formed_prefix l) ++ bad :: rest.
Proof.
  induction l as [|e rest IH]; simpl; [discriminate|].
  destruct e as [g [v|]|g]; simpl.
  - intro H. destruct (IH H) as [bad [rest' [Hb Hl]]].
    exists bad, rest'. split; [exact Hb|]. now rewrite <- Hl.
  - intro H. now exists (Tuple2 g PyNone), rest.
  - intro H. now exists (Tuple1 g), rest.
Qed.

Lemma commits_offers pairs : commits (offers (Kwargs:=Kwargs) pairs) = [].
Proof.
  induction pairs as [|[g v] rest IH]; [reflexivity|].
  unfold commits, offers in *. simpl. exact IH.
Qed.



(** X1. On a list with a faulty entry, [_maybe_enqueue] raises the exception
    of the last faulty entry once it has offered the pairs that follow it,
    last pair first; no pair in front of it is offered and no commit is
    made, so the queue keeps the offers.  [apply_gradients] in before-apply
    mode stops in that very state. *)
Theorem faulty_list_offers_tail_without_commit
    w grads_and_vars (x : exn) global_step nm :
  first_fault (rev (items grads_and_vars)) = Some x ->
  let tail := rev (well_formed_prefix (rev (items grads_and_vars))) in
  let w' := snd (_maybe_enqueue grads_and_vars w) in
  (exists front bad,
     fault bad = Some x /\
     items grads_and_vars = front ++ bad :: of_pairs tail) /\
  fst (_maybe_enqueue grads_and_vars w) = Raise x /\
  since w w' = offers (rev tail) /\
  commits (since w w') = [] /\
  queue w' = offered (_outfeed (this w)) (rev tail) (queue w) /\
  (_outfeed_optimizer_mode (this w) = BEFORE_APPLY ->
   apply_gradients grads_and_vars global_step nm w =
   (Raise x, w')).
Proof.
  intros Hf tail w'. subst tail w'. rewrite rev_involutive.
  rewrite run_maybe_enqueue_fault with (x := x) by assumption. simpl.
  split; [|repeat split].
  - destruct (first_fault_split _ Hf) as [bad [rest [Hb Hl]]].
    exists (rev rest), bad. split; [exact Hb|].
    transitivity
      (rev (of_pairs (well_formed_prefix (rev (items grads_and_vars)))
            ++ bad :: rest)).
    + rewrite <- Hl. symmetry. apply rev_involutive.
    + rewrite rev_app_distr. simpl. rewrite <- app_assoc. simpl.
      now rewrite of_pairs_rev.
  - now apply since_app.
  - rewrite since_app with
      (evs := offers (well_formed_prefix (rev (items grads_and_vars))))
      by reflexivity.
    apply commits_offers.
  - intro Hm. now apply run_apply_fault.
Qed.

(** X2. How [compute_gradients] ends, the queue's two methods returning as
    their interface has them.  When the wrapped optimizer's
    [compute_gradients] raises, in either mode, the call raises its
    exception, the queue is untouched and nothing else is called.  In
    after-compute mode the call also raises on a produced list with a faulty
    entry (the exception of the offer loop), and on a produced list whose
    first gradient is [None] when the commit handed back an operation (the
    exception of [array_ops.identity], after the commit).  In every other
    case it returns.  The wrapped optimizer is always left as its own
    [compute_gradients] left it. *)
Theorem compute_gradients_fails_when w loss var_list kwargs :
  let r := compute_gradients loss var_list kwargs w in
  result_map (fun _ : pylist => tt) (fst r) =
  match fst (computed w loss var_list kwargs) with
  | inl e => Raise (Raised e)
  | inr l =>
      if mode_eqb (_outfeed_optimizer_mode (this w)) AFTER_COMPUTE
      then match first_fault (rev l) with
           | Some x => Raise x
           | None =>
               match enqueue_of (well_formed_prefix l) w with
               | Some _ =>
                   if first_gradient_missing (well_formed_prefix l)
                   then Raise ValueError_none
                   else Ok tt
               | None => Ok tt
               end
           end
      else Ok tt
  end /\
  opt (snd r) = snd (computed w loss var_list kwargs) /\
  (forall e,
     fst (computed w loss var_list kwargs) = inl e ->
     queue (snd r) = queue w /\ next_id (snd r) = next_id w /\
     since w (snd r) = [EvCompute loss var_list kwargs]).
Proof.
  intro r. subst r.
  destruct (fst (computed w loss var_list kwargs)) as [e|l] eqn:Hc.
  - rewrite run_compute_raise with (e := e), run_call_compute by assumption.
    rewrite Hc. simpl. repeat split. now apply since_app.
  - destruct (mode_cases (_outfeed_optimizer_mode (this w))) as [Hm|Hm];
      rewrite Hm; simpl.
    + destruct (first_fault (Err:=Err) (rev l)) as [x|] eqn:Hf.
      * rewrite run_compute_fault with (l := l) (x := x) by assumption.
        rewrite run_call_compute. simpl.
        repeat split; intros; discriminate.
      * apply no_fault_rev_of_pairs in Hf. rewrite Hf in Hc.
        rewrite run_compute_after_compute
          with (pairs := well_formed_prefix l) by assumption.
        simpl. split; [|split; [reflexivity|intros; discriminate]].
        destruct (enqueue_of (well_formed_prefix l) w); [|reflexivity].
        now destruct (first_gradient_missing (well_formed_prefix l)).
    + rewrite run_compute_before_apply, run_call_compute by assumption.
      rewrite Hc. simpl. repeat split; intros; discriminate.
Qed.

(** X3. Whenever [compute_gradients] returns, in either mode and whatever
    the commit handed back, the list it returns has as many entries as the
    list the wrapped optimizer produced, each with the same variable and a
    gradient that carries the same value, in the same order. *)
Theorem compute_gradients_carries_values_through
    w loss var_list kwargs (l : list entry) (returned : pylist) :
  fst (computed w loss var_list kwargs) = inr l ->
  fst (compute_gradients loss var_list kwargs w) = Ok returned ->
  map carried (items returned) = map carried l /\
  List.length (items returned) = List.length l.
Proof.
  intros Hc Hr.
  assert (H : map carried (items returned) = map carried l).
  { destruct (mode_cases (_outfeed_optimizer_mode (this w))) as [Hm|Hm].
    - destruct (first_fault (Err:=Err) (rev l)) as [x|] eqn:Hf.
      + rewrite run_compute_fault with (l := l) (x := x) in Hr
          by assumption.
        discriminate.
      + apply no_fault_rev_of_pairs in Hf.
        remember (well_formed_prefix l) as pairs eqn:Hp. clear Hp. subst l.
        rewrite run_compute_after_compute with (pairs := pairs) in Hr
          by assumption.
        simpl in Hr.
        destruct (enqueue_of pairs w); simpl in Hr.
        * destruct pairs as [|[[g|] v] rest];
            simpl in Hr; try discriminate; now inversion Hr.
        * now inversion Hr.
    - rewrite run_compute_before_apply, run_call_compute in Hr
        by assumption.
      rewrite Hc in Hr. simpl in Hr. now inversion Hr. }
  split; [exact H|].
  rewrite <- (length_map carried (items returned)), H.
  apply length_map.
Qed.



(** X7. In after-compute mode, when the commit hands back an enqueue
    operation, a list that [compute_gradients] returns has that operation
    among the control inputs of one of its gradients exactly when the
    wrapped optimizer produced at least one pair.  On an empty produced
    list, which the queue can still commit on when it retains values offered
    from elsewhere, [compute_gradients] does return, an empty list, and
    nothing it returns depends on the enqueue operation. *)
Theorem enqueue_attached_iff_pair_produced
    w loss var_list kwargs pairs (enq : operation) :
  _outfeed_optimizer_mode (this w) = AFTER_COMPUTE ->
  fst (computed w loss var_list kwargs) = inr (of_pairs pairs) ->
  enqueue_of pairs w = Some enq ->
  let r := compute_gradients loss var_list kwargs w in
  (forall returned,
     fst r = Ok returned ->
     (attached enq (items returned) <-> pairs <> [])) /\
  (pairs = [] ->
   exists returned, fst r = Ok returned /\ items returned = []) /\
  commits (since w (snd r)) = [EvCommit (Some enq)].
Proof.
  intros Hm Hc He r. subst r.
  rewrite run_compute_after_compute with (pairs := pairs) by assumption.
  rewrite He. simpl. split; [|split].
  - intros returned Hr.
    destruct pairs as [|[[g|] v] rest]; simpl in Hr; try discriminate;
      inversion Hr; simpl.
    + split; [|congruence].
      intros [g [ctrl [[H|[v H]] _]]]; destruct H.
    + split; [discriminate|]. intros _.
      exists g, (deps w ++ [enq]). split.
      * right. exists (PyVariable v). now left.
      * apply in_or_app. right. now left.
  - intros Hp. subst pairs. simpl. now eexists.
  - erewrite since_app by reflexivity. simpl.
    unfold commits. rewrite filter_app.
    fold (commits (offers (Kwargs:=Kwargs) (rev pairs))).
    now rewrite commits_offers.
Qed.

(** X8. When the wrapped optimizer produces well-formed pairs,
    [compute_gradients] returns the list object the wrapped optimizer built
    exactly when the mode is before-apply or the commit handed back
    nothing.  Otherwise, when the first pair has a gradient or there is no
    pair, it returns a list object of its own, built after the produced
    one, that holds the pairs with the first gradient behind an identity. *)
Theorem compute_gradients_same_list_iff_no_enqueue
    w loss var_list kwargs pairs :
  fst (computed w loss var_list kwargs) = inr (of_pairs pairs) ->
  let produced := PyList (next_id w) (of_pairs pairs) in
  let r := compute_gradients loss var_list kwargs w in
  fst (call_compute_gradients loss var_list kwargs w) = Ok produced /\
  (fst r = Ok produced <->
   _outfeed_optimizer_mode (this w) = BEFORE_APPLY \/
   enqueue_of pairs w = None) /\
  (_outfeed_optimizer_mode (this w) = AFTER_COMPUTE ->
   forall e,
     enqueue_of pairs w = Some e ->
     first_gradient_missing pairs = false ->
     exists returned,
       fst r = Ok returned /\
       list_id produced < list_id returned /\
       items returned =
       of_pairs (first_behind_identity (deps w ++ [e]) pairs)).
Proof.
  intros Hc produced r. subst produced r.
  split; [now rewrite run_call_compute, Hc|].
  destruct (mode_cases (_outfeed_optimizer_mode (this w))) as [Hm|Hm].
  - rewrite run_compute_after_compute with (pairs := pairs) by assumption.
    simpl. destruct (enqueue_of pairs w) as [e|]; split.
    + split.
      * intro H. destruct (first_gradient_missing pairs);
          [discriminate|]. inversion H as [[Hn Hi]]. lia.
      * intros [H|H]; congruence.
    + intros _ e' He' Hg. rewrite Hg. eexists. split; [reflexivity|].
      simpl. inversion He'. split; [lia|reflexivity].
    + split; auto.
    + intros _ e' He'. discriminate.
  - rewrite run_compute_before_apply, run_call_compute by assumption.
    rewrite Hc. simpl. split.
    + split; auto.
    + intros H. congruence.
Qed.

(** X9. In before-apply mode nothing is undone when the wrapped optimizer
    rejects the list: on well-formed pairs the offers and the commit are
    made first, so when the wrapped [apply_gradients] raises, its exception
    reaches the caller with the queue already offered every pair and
    committed. *)
Theorem rejected_apply_keeps_commit
    w grads_and_vars pairs global_step nm (e : Err) :
  _outfeed_optimizer_mode (this w) = BEFORE_APPLY ->
  items grads_and_vars = of_pairs pairs ->
  fst (applied w (items grads_and_vars) global_step nm) = inl e ->
  let r := apply_gradients grads_and_vars global_step nm w in
  fst r = Raise (Raised e) /\
  queue_calls (since w (snd r)) =
  offers (rev pairs) ++ [EvCommit (enqueue_of pairs w)] /\
  queue (snd r) =
  snd (maybe_enqueue (_outfeed (this w))
         (offered (_outfeed (this w)) (rev pairs) (queue w))).
Proof.
  intros Hm Hi He r. subst r.
  split; [|split].
  - rewrite run_apply_before_apply with (pairs := pairs) by assumption.
    simpl. now rewrite He.
  - now apply apply_gradients_queue_calls.
  - now rewrite run_apply_before_apply with (pairs := pairs) by assumption.
Qed.

(** X10. In after-compute mode [apply_gradients] does not look at the list:
    whatever the list, faulty entries included, it calls the wrapped
    optimizer's [apply_gradients] once, in the caller's scope, on the
    arguments as they came, and returns what that call yields; it makes no
    call to the queue, leaves it as it is and builds no list. *)
Theorem apply_gradients_after_compute_is_wrapped_call
    w grads_and_vars global_step nm :
  _outfeed_optimizer_mode (this w) = AFTER_COMPUTE ->
  let r := apply_gradients grads_and_vars global_step nm w in
  let wrapped := applied w (items grads_and_vars) global_step nm in
  fst r = built (deps w) (fst wrapped) /\
  opt (snd r) = snd wrapped /\
  since w (snd r) = [EvApply (items grads_and_vars) global_step nm (deps w)] /\
  queue (snd r) = queue w /\
  next_id (snd r) = next_id w.
Proof.
  intros Hm r wrapped. subst r wrapped.
  rewrite run_apply_after_compute, run_call_apply by assumption.
  simpl. repeat split. now apply since_app.
Qed.

(** X11. In after-compute mode, when the first pair the wrapped optimizer
    produced has a gradient and the commit hands back an enqueue operation,
    [compute_gradients] returns the produced pairs with that first
    gradient, and only it, behind an identity whose control inputs are those
    of the caller's scope followed by the enqueue operation; the identity
    carries the value the gradient carried, and the commit was made. *)
Theorem compute_gradients_puts_first_gradient_behind_commit
    w loss var_list kwargs (g : tensor) (v : tf_variable) rest
    (enq : operation) :
  _outfeed_optimizer_mode (this w) = AFTER_COMPUTE ->
  fst (computed w loss var_list kwargs) =
  inr (of_pairs ((Some g, v) :: rest)) ->
  enqueue_of ((Some g, v) :: rest) w = Some enq ->
  let r := compute_gradients loss var_list kwargs w in
  let behind_commit := Identity g (deps w ++ [enq]) in
  result_map (@items T kernel) (fst r) =
  Ok (of_pairs ((Some behind_commit, v) :: rest)) /\
  value_of behind_commit = value_of g /\
  In (EvCommit (Some enq)) (since w (snd r)).
Proof.
  intros Hm Hc He r behind_commit. subst r behind_commit.
  rewrite run_compute_after_compute with (pairs := (Some g, v) :: rest)
    by assumption.
  rewrite He. simpl. repeat split.
  erewrite since_app by reflexivity.
  right. apply in_or_app. right. now left.
Qed.

End Further.

(** ** The filtering queue commits nothing when it selects nothing *)

Section FilterQueueProperties.

Context {T kernel : Type}.

Lemma filter_queue_selects_nothing
    (enqueue_op :
       list (string * option (tensor (T:=T) (kernel:=kernel))) -> kernel)
    (pairs : list (option (tensor (T:=T) (kernel:=kernel)) * tf_variable))
    (q : queue_state) :
  _vals q = [] ->
  forallb (fun p => negb (selected (_filters q) (key_of (snd p)))) pairs
  = true ->
  offered (filter_queue enqueue_op) pairs q = q /\
  fst (maybe_enqueue (filter_queue enqueue_op) q) = None.
Proof.
  intros Hv Hs. split.
  - induction pairs as [|[g v] rest IH]; [reflexivity|].
    simpl in Hs. apply andb_prop in Hs. destruct Hs as [Hp Hr].
    apply negb_true_iff in Hp. unfold offered in *. simpl.
    rewrite Hp. now apply IH.
  - simpl. now rewrite Hv.
Qed.

(** With such a queue, empty so far and selecting none of the keys, the
    commit of [_maybe_enqueue] hands back nothing. *)
Lemma filter_queue_commits_nothing {Err Kwargs O : Type}
    (enqueue_op :
       list (string * option (tensor (T:=T) (kernel:=kernel))) -> kernel)
    (pairs : list (option (tensor (T:=T) (kernel:=kernel)) * tf_variable))
    (w : world (Err:=Err) (Kwargs:=Kwargs) (O:=O)) :
  _outfeed (this w) = filter_queue enqueue_op ->
  _vals (queue w) = [] ->
  forallb (fun p => negb (selected (_filters (queue w)) (key_of (snd p))))
          pairs = true ->
  enqueue_of pairs w = None.
Proof.
  intros Hq Hv Hs. unfold enqueue_of, commit_of. rewrite Hq.
  assert (Hr : forallb (fun p => negb (selected (_filters (queue w))
                                         (key_of (snd p)))) (rev pairs)
               = true).
  { apply forallb_forall. intros p Hp. apply in_rev in Hp.
    revert p Hp. now apply forallb_forall. }
  destruct (@filter_queue_selects_nothing enqueue_op (rev pairs) (queue w)
              Hv Hr) as [Ho Hn].
  now rewrite Ho, Hn.
Qed.

End FilterQueueProperties.

(** ** The statements at work on the small graph *)

Import Demo.

(** Two variables [A] and [B], a filter that selects [A], before-apply
    mode: the queue is offered [B_grad] then [A_grad] and retains
    [A_grad] only, the commit hands back an enqueue operation, the wrapped
    optimizer is called after it, and the update is that of the wrapped
    optimizer, behind the enqueue operation. *)
Example two_variables_one_selected :
  let r := apply_gradients listAB None None before_apply_world in
  fst r = Ok (Op (AssignSub ["A"; "B"]%string None) [enqueue_A]) /\
  log (snd r) =
  [EvOffer "B_grad" (Some gB); EvOffer "A_grad" (Some gA);
   EvCommit (Some enqueue_A);
   EvApply (items listAB) None None [enqueue_A]] /\
  _vals (queue (snd r)) = [("A_grad"%string, Some gA)] /\
  enqueued (queue (snd r)) = true /\
  fst (call_apply_gradients listAB None None before_apply_world) =
  Ok (Op (AssignSub ["A"; "B"]%string None) []).
Proof. repeat split. Qed.

(** Called from inside a block with a control input of its own, the update
    operation has that input first and the enqueue operation after it; the
    enqueue operation was itself built in the caller's scope. *)
Example enclosing_scope_comes_first :
  fst (apply_gradients listAB None None scoped_world) =
  Ok (Op (AssignSub ["A"; "B"]%string None)
         [outer; Op (OutfeedEnqueue ["A_grad"%string]) [outer]]) /\
  deps (snd (apply_gradients listAB None None scoped_world)) = [outer].
Proof. split; reflexivity. Qed.

Lemma apply_gradients_refines_wrapped_witness :
  items listAB = of_pairs pairsAB /\
  outcome (fst (apply_gradients listAB None None before_apply_world)) =
  Ok (AssignSub ["A"; "B"]%string None) /\
  opt (snd (apply_gradients listAB None None before_apply_world)) = 1 /\
  apply_calls
    (since before_apply_world
       (snd (apply_gradients listAB None None before_apply_world))) =
  [EvApply (items listAB) None None [enqueue_A]] /\
  fst (apply_gradients listAB None None before_apply_world) =
  result_map (behind [enqueue_A])
    (fst (call_apply_gradients listAB None None before_apply_world)).
Proof.
  split; [reflexivity|].
  destruct (@apply_gradients_refines_wrapped _ _ _ _ _ _
              before_apply_world listAB pairsAB None None eq_refl)
    as [H1 [H2 [H3 [_ [_ [_ H7]]]]]].
  split; [exact H1|]. split; [exact H2|]. split; [exact H3|exact H7].
Defined.

Lemma offers_are_reversed_suffixed_names_witness :
  items listAB = of_pairs pairsAB /\
  _outfeed_optimizer_mode (this before_apply_world) = BEFORE_APPLY /\
  _outfeed_optimizer_mode (this after_compute_world) = AFTER_COMPUTE /\
  fst (computed after_compute_world loss (Some [A; B]) tt) =
  inr (items listAB) /\
  offered_keys
    (since before_apply_world
       (snd (apply_gradients listAB None None before_apply_world))) =
  ["B_grad"; "A_grad"]%string /\
  offered_keys
    (since after_compute_world
       (snd (compute_gradients loss (Some [A; B]) tt after_compute_world))) =
  ["B_grad"; "A_grad"]%string.
Proof.
  do 4 (split; [reflexivity|]).
  split.
  - destruct (@offers_are_reversed_suffixed_names _ _ _ _ _ _
                before_apply_world listAB pairsAB eq_refl) as [_ [H _]].
    exact (proj1 (H eq_refl None None)).
  - destruct (@offers_are_reversed_suffixed_names _ _ _ _ _ _
                after_compute_world listAB pairsAB eq_refl) as [_ [_ H]].
    exact (proj1 (H eq_refl loss (Some [A; B]) tt eq_refl)).
Defined.

Lemma compute_gradients_raises_on_missing_first_gradient_witness :
  _outfeed_optimizer_mode (this after_compute_B) = AFTER_COMPUTE /\
  fst (computed after_compute_B loss (Some [frozen; B]) tt) =
  inr (of_pairs pairs_frozenB) /\
  enqueue_of pairs_frozenB after_compute_B = Some enqueue_B /\
  fst (compute_gradients loss (Some [frozen; B]) tt after_compute_B) =
  Raise ValueError_none /\
  since after_compute_B
    (snd (compute_gradients loss (Some [frozen; B]) tt after_compute_B)) =
  [EvCompute loss (Some [frozen; B]) tt;
   EvOffer "B_grad" (Some gB); EvOffer "frozen_grad" None;
   EvCommit (Some enqueue_B)].
Proof.
  do 3 (split; [reflexivity|]).
  destruct (@compute_gradients_raises_on_missing_first_gradient
              _ _ _ _ _ _ after_compute_B loss (Some [frozen; B]) tt
              frozen [(Some gB, B)] enqueue_B eq_refl eq_refl eq_refl)
    as [H1 [H2 _]].
  split; [exact H1|exact H2].
Defined.

Lemma compute_gradients_returns_produced_list_witness :
  _outfeed_optimizer_mode (this after_compute_unselected) = AFTER_COMPUTE /\
  call_compute_gradients loss (Some [A; B]) tt after_compute_unselected =
  (Ok (PyList 0 (of_pairs pairsAB)),
   snd (call_compute_gradients loss (Some [A; B]) tt
          after_compute_unselected)) /\
  fst (_maybe_enqueue (PyList 0 (of_pairs pairsAB))
         (snd (call_compute_gradients loss (Some [A; B]) tt
                 after_compute_unselected))) = Ok None /\
  fst (compute_gradients loss (Some [A; B]) tt after_compute_unselected) =
  Ok (PyList 0 (of_pairs pairsAB)).
Proof.
  do 3 (split; [reflexivity|]).
  exact (proj1 (@compute_gradients_returns_produced_list
                  _ _ _ _ _ _ after_compute_unselected loss (Some [A; B]) tt
                  _ _ eq_refl eq_refl eq_refl)).
Defined.

Lemma configuration_fixed_one_interception_point_witness :
  items listAB = of_pairs pairsAB /\
  this (snd (apply_gradients listAB None None before_apply_world)) =
  this before_apply_world /\
  queue_calls
    (since before_apply_world
       (snd (compute_gradients loss (Some [A; B]) tt before_apply_world))) =
  [] /\
  queue_calls
    (since before_apply_world
       (snd (apply_gradients listAB None None before_apply_world))) =
  [EvOffer "B_grad" (Some gB); EvOffer "A_grad" (Some gA);
   EvCommit (Some enqueue_A)].
Proof.
  split; [reflexivity|].
  destruct (configuration_fixed_one_interception_point before_apply_world)
    as [[_ [Ha _]] [[Hm _]|[_ [Hc Hap]]]].
  - discriminate Hm.
  - split; [apply Ha|].
    split; [apply (Hc loss (Some [A; B]) tt)|].
    exact (Hap listAB pairsAB None None eq_refl).
Defined.


Lemma apply_gradients_fails_in_loop_on_nameless_variable_witness :
  items nameless = [Tuple2 (Some gA) PyNone] /\
  _outfeed_optimizer_mode (this before_apply_world) = BEFORE_APPLY /\
  _outfeed_optimizer_mode (this after_compute_world) = AFTER_COMPUTE /\
  fst (apply_gradients nameless None None before_apply_world) =
  Raise AttributeError_name /\
  since before_apply_world
    (snd (apply_gradients nameless None None before_apply_world)) = [] /\
  fst (apply_gradients nameless None None after_compute_world) =
  Raise (Raised "Malformed gradients and variables."%string).
Proof.
  do 3 (split; [reflexivity|]).
  destruct (@apply_gradients_fails_in_loop_on_nameless_variable
              _ _ _ _ _ _ before_apply_world nameless (Some gA) None None
              eq_refl) as [H _].
  destruct (H eq_refl) as [H1 [_ [H3 _]]].
  split; [exact H1|]. split; [exact H3|].
  destruct (@apply_gradients_fails_in_loop_on_nameless_variable
              _ _ _ _ _ _ after_compute_world nameless (Some gA) None None
              eq_refl) as [_ H'].
  exact (proj1 (H' eq_refl)).
Defined.

Lemma accessors_delegate_witness :
  _wrapped_optimizer (this after_compute_unselected) =
  _wrapped_optimizer (this before_apply_world) /\
  opt after_compute_unselected = opt before_apply_world /\
  fst (get_name before_apply_world) = Ok "GradientDescent"%string /\
  fst (get_name after_compute_unselected) =
  fst (get_name before_apply_world).
Proof.
  do 2 (split; [reflexivity|]).
  destruct (accessors_delegate before_apply_world A "momentum")
    as [[Hn _] Hw].
  split.
  - now rewrite Hn.
  - exact (proj1 (Hw after_compute_unselected eq_refl eq_refl)).
Defined.

Lemma default_mode_is_before_apply_witness :
  this before_apply_world = __init__ sgd outfeed None None /\
  _outfeed_optimizer_mode (this before_apply_world) = BEFORE_APPLY.
Proof.
  split; [reflexivity|].
  exact (proj1 (@default_mode_is_before_apply _ _ _ _ _ _
                  before_apply_world sgd outfeed None eq_refl)).
Defined.

Lemma get_name_ignores_constructor_name_witness :
  this (start None (Some AFTER_COMPUTE) (Some "Mine"%string)) =
  __init__ sgd outfeed (Some AFTER_COMPUTE) (Some "Mine"%string) /\
  fst (get_name (start None (Some AFTER_COMPUTE) (Some "Mine"%string))) =
  Ok "GradientDescent"%string.
Proof.
  split; [reflexivity|].
  exact (proj1 (@get_name_ignores_constructor_name _ _ _ _ _ _
                  (start None (Some AFTER_COMPUTE) (Some "Mine"%string))
                  sgd outfeed (Some AFTER_COMPUTE) (Some "Mine"%string)
                  eq_refl)).
Defined.

Lemma faulty_list_offers_tail_without_commit_witness :
  first_fault (Err:=string) (rev (items broken)) = Some ValueError_unpack /\
  _outfeed_optimizer_mode (this before_apply_world) = BEFORE_APPLY /\
  fst (_maybe_enqueue broken before_apply_world) = Raise ValueError_unpack /\
  since before_apply_world (snd (_maybe_enqueue broken before_apply_world)) =
  [EvOffer "B_grad" (Some gB)] /\
  fst (apply_gradients broken None None before_apply_world) =
  Raise ValueError_unpack.
Proof.
  do 2 (split; [reflexivity|]).
  destruct (@faulty_list_offers_tail_without_commit _ _ _ _ _ _
              before_apply_world broken ValueError_unpack None None eq_refl)
    as [_ [H1 [H2 [_ [_ H3]]]]].
  split; [exact H1|]. split; [exact H2|].
  exact (f_equal fst (H3 eq_refl)).
Defined.

Lemma compute_gradients_fails_when_witness :
  fst (computed after_compute_world loss None tt) =
  inl "No variables to optimize."%string /\
  queue (snd (compute_gradients loss None tt after_compute_world)) =
  queue after_compute_world /\
  since after_compute_world
    (snd (compute_gradients loss None tt after_compute_world)) =
  [EvCompute loss None tt].
Proof.
  split; [reflexivity|].
  destruct (compute_gradients_fails_when after_compute_world loss None tt)
    as [_ [_ H]].
  destruct (H "No variables to optimize."%string eq_refl) as [Hq [_ Hs]].
  split; [exact Hq|exact Hs].
Defined.

Lemma compute_gradients_carries_values_through_witness :
  fst (computed after_compute_world loss (Some [A; B]) tt) =
  inr (of_pairs pairsAB) /\
  fst (compute_gradients loss (Some [A; B]) tt after_compute_world) =
  Ok (PyList 3
        (of_pairs [(Some (Identity gA [enqueue_A]), A); (Some gB, B)])) /\
  map carried
    (of_pairs [(Some (Identity gA [enqueue_A]), A); (Some gB, B)]) =
  map carried (of_pairs pairsAB).
Proof.
  do 2 (split; [reflexivity|]).
  exact (proj1 (@compute_gradients_carries_values_through _ _ _ _ _ _
                  after_compute_world loss (Some [A; B]) tt
                  (of_pairs pairsAB)
                  (PyList 3
                     (of_pairs [(Some (Identity gA [enqueue_A]), A);
                                (Some gB, B)]))
                  eq_refl eq_refl)).
Defined.


Lemma enqueue_attached_iff_pair_produced_witness :
  _outfeed_optimizer_mode (this idle_world) = AFTER_COMPUTE /\
  fst (computed idle_world loss None tt) = inr (of_pairs []) /\
  enqueue_of [] idle_world = Some enqueue_act /\
  exists returned,
    fst (compute_gradients loss None tt idle_world) = Ok returned /\
    items returned = [] /\
    ~ attached enqueue_act (items returned).
Proof.
  do 3 (split; [reflexivity|]).
  destruct (@enqueue_attached_iff_pair_produced _ _ _ _ _ _
              idle_world loss None tt [] enqueue_act eq_refl eq_refl eq_refl)
    as [H1 [H2 _]].
  destruct (H2 eq_refl) as [returned [Hr Hi]].
  exists returned. split; [exact Hr|]. split; [exact Hi|].
  intro Ha. exact (proj1 (H1 returned Hr) Ha eq_refl).
Defined.

Lemma compute_gradients_same_list_iff_no_enqueue_witness :
  fst (computed after_compute_world loss (Some [A; B]) tt) =
  inr (of_pairs pairsAB) /\
  _outfeed_optimizer_mode (this after_compute_world) = AFTER_COMPUTE /\
  enqueue_of pairsAB after_compute_world = Some enqueue_A /\
  first_gradient_missing pairsAB = false /\
  fst (call_compute_gradients loss (Some [A; B]) tt after_compute_world) =
  Ok (PyList 0 (of_pairs pairsAB)) /\
  exists returned,
    fst (compute_gradients loss (Some [A; B]) tt after_compute_world) =
    Ok returned /\
    0 < list_id returned.
Proof.
  do 4 (split; [reflexivity|]).
  destruct (@compute_gradients_same_list_iff_no_enqueue _ _ _ _ _ _
              after_compute_world loss (Some [A; B]) tt pairsAB eq_refl)
    as [H1 [_ H3]].
  split; [exact H1|].
  destruct (H3 eq_refl enqueue_A eq_refl eq_refl) as [returned [Hr [Hl _]]].
  exists returned. split; [exact Hr|exact Hl].
Defined.

Lemma rejected_apply_keeps_commit_witness :
  _outfeed_optimizer_mode (this before_apply_world) = BEFORE_APPLY /\
  items list_none = of_pairs pairs_none /\
  fst (applied before_apply_world (items list_none) None None) =
  inl "No gradients provided for any variable."%string /\
  fst (apply_gradients list_none None None before_apply_world) =
  Raise (Raised "No gradients provided for any variable."%string) /\
  queue_calls
    (since before_apply_world
       (snd (apply_gradients list_none None None before_apply_world))) =
  [EvOffer "B_grad" None; EvOffer "A_grad" None;
   EvCommit (Some enqueue_A)] /\
  _vals (queue (snd (apply_gradients list_none None None
                       before_apply_world))) =
  [("A_grad"%string, None)].
Proof.
  do 3 (split; [reflexivity|]).
  destruct (@rejected_apply_keeps_commit _ _ _ _ _ _
              before_apply_world list_none pairs_none None None
              "No gradients provided for any variable."%string
              eq_refl eq_refl eq_refl)
    as [H1 [H2 H3]].
  split; [exact H1|]. split; [exact H2|].
  exact (f_equal (@_vals string kernel) H3).
Defined.

Lemma apply_gradients_after_compute_is_wrapped_call_witness :
  _outfeed_optimizer_mode (this after_compute_world) = AFTER_COMPUTE /\
  fst (apply_gradients broken None None after_compute_world) =
  Raise (Raised "Malformed gradients and variables."%string) /\
  since after_compute_world
    (snd (apply_gradients broken None None after_compute_world)) =
  [EvApply (items broken) None None []].
Proof.
  split; [reflexivity|].
  destruct (@apply_gradients_after_compute_is_wrapped_call _ _ _ _ _ _
              after_compute_world broken None None eq_refl)
    as [H1 [_ [H3 _]]].
  split; [exact H1|exact H3].
Defined.

Lemma compute_gradients_puts_first_gradient_behind_commit_witness :
  _outfeed_optimizer_mode (this after_compute_world) = AFTER_COMPUTE /\
  fst (computed after_compute_world loss (Some [A; B]) tt) =
  inr (of_pairs pairsAB) /\
  enqueue_of pairsAB after_compute_world = Some enqueue_A /\
  result_map (@items string kernel)
    (fst (compute_gradients loss (Some [A; B]) tt after_compute_world)) =
  Ok (of_pairs [(Some (Identity gA [enqueue_A]), A); (Some gB, B)]).
Proof.
  do 3 (split; [reflexivity|]).
  exact (proj1 (@compute_gradients_puts_first_gradient_behind_commit
                  _ _ _ _ _ _ after_compute_world loss (Some [A; B]) tt
                  gA A [(Some gB, B)] enqueue_A eq_refl eq_refl eq_refl)).
Defined.
